(** * mongo-db-demo: the Express server and the demo runner, embedded in Rocq

    The development follows the two entry points of the repository.

    - [server.js]: the startup seed of the posts collection and the JSON
      endpoints over the users and posts collections.
    - [demo.js]: the [MongoDemo] class, whose [runDemo] method chains the
      demo steps, each inside its own try/catch.

    The database is the state.  A collection is the list of its documents in
    natural (insertion) order, which is the order [find({}).toArray()]
    returns and the order in which [findOne], [updateOne] and [deleteOne]
    pick the first match.  Asynchronous calls are awaited one after the
    other in every handler, so a handler is a sequential program over that
    state; a rejected promise under [await] is an exception.  Driver calls on
    the collections are taken to succeed; the exceptions of the server model
    are the ones the handlers provoke themselves ([ObjectId.createFromHexString]
    on a malformed string, a method call on a value that has no such
    method, the destructuring of an undefined [req.body]).  In the demo
    runner every step may fail, as an input decides.

    A JavaScript string is kept as the bytes of its UTF-8 encoding.  The
    methods [trim] and [toLowerCase] of [String.prototype] belong to the
    runtime (they follow the Unicode white space and case tables); the
    server is embedded over any pair of such functions, and what is proved
    of it holds for the runtime's. *)

From Stdlib Require Import List String Ascii Bool NArith ZArith Lia.
Import ListNotations.
Local Open Scope string_scope.
Local Open Scope list_scope.
Set Warnings "-register-all".

(** ** Exceptions and state: the monad of the handlers *)

Module Eff.

(** What a [throw] carries.  [BSONError] is the driver's error for a
    malformed identifier, [TypeError] the runtime's for a call of a missing
    method, [DriverError] a rejected database call. *)
Inductive exn : Type :=
| BSONError
| TypeError
| DriverError.

Inductive result (A : Type) : Type :=
| Ok (a : A)
| Throw (e : exn).
Arguments Ok {A} a.
Arguments Throw {A} e.

(** A computation over a state [S] that returns or throws. *)
Definition M (S A : Type) : Type := S -> result A * S.

Definition ret {S A} (a : A) : M S A := fun s => (Ok a, s).

Definition bind {S A B} (c : M S A) (k : A -> M S B) : M S B :=
  fun s =>
    match c s with
    | (Ok a, s') => k a s'
    | (Throw e, s') => (Throw e, s')
    end.

Definition throw {S A} (e : exn) : M S A := fun s => (Throw e, s).

(** [try { c } catch (e) { h e }] *)
Definition try_catch {S A} (c : M S A) (h : exn -> M S A) : M S A :=
  fun s =>
    match c s with
    | (Ok a, s') => (Ok a, s')
    | (Throw e, s') => h e s'
    end.

(** [try { c } finally { f }]: [f] runs on both exits; the outcome of [c]
    is kept unless [f] itself throws. *)
Definition try_finally {S A} (c : M S A) (f : M S unit) : M S A :=
  fun s =>
    match c s with
    | (r, s') =>
        match f s' with
        | (Ok _, s'') => (r, s'')
        | (Throw e, s'') => (Throw e, s'')
        end
    end.

Definition get {S} : M S S := fun s => (Ok s, s).
Definition put {S} (s : S) : M S unit := fun _ => (Ok tt, s).
Definition modify {S} (f : S -> S) : M S unit := fun s => (Ok tt, f s).

(** Lifting of a pure result. *)
Definition lift {S A} (r : result A) : M S A := fun s => (r, s).

End Eff.
Import Eff.

Declare Scope eff_scope.
Delimit Scope eff_scope with eff.
Notation "x <- c ;; k" := (bind c (fun x => k))
  (at level 61, c at next level, right associativity) : eff_scope.
Notation "c ;; k" := (bind c (fun _ => k))
  (at level 61, right associativity) : eff_scope.
Local Open Scope eff_scope.

(** ** JavaScript values *)

Module JS.

(** The values a parsed JSON request body can hold, with [VUndefined] for
    a property that is absent.  Numbers are the integral ones. *)
Inductive value : Type :=
| VUndefined
| VNull
| VBool (b : bool)
| VNum (n : Z)
| VStr (s : string)
| VArr (items : list value)
| VObj (props : list (string * value)).

(** An object as the list of its own properties. *)
Definition object : Type := list (string * value).

(** Property read [o.k]: [undefined] when [o] has no property [k]. *)
Fixpoint prop (k : string) (o : object) : value :=
  match o with
  | [] => VUndefined
  | (k', v) :: o' => if String.eqb k k' then v else prop k o'
  end.

(** ToBoolean. *)
Definition truthy (v : value) : bool :=
  match v with
  | VUndefined => false
  | VNull => false
  | VBool b => b
  | VNum n => negb (Z.eqb n 0)
  | VStr s => negb (String.eqb s "")
  | VArr _ => true
  | VObj _ => true
  end.

(** [a || b] *)
Definition or_else (a b : value) : value := if truthy a then a else b.

(** Destructuring default [{ k = d }]: the default replaces [undefined]
    only. *)
Definition with_default (v d : value) : value :=
  match v with
  | VUndefined => d
  | _ => v
  end.

(** The result of unary plus, [+v], kept as the conversion of its
    operand: no handler inspects the number. *)
Inductive number : Type :=
| UnaryPlus (v : value).

(** The two methods of [String.prototype] the server calls.  They are the
    runtime's and are taken as given; nothing is assumed of them. *)
Class StringPrototype : Type := {
  trim : string -> string;
  toLowerCase : string -> string
}.

(** [v.trim()] on an arbitrary value: only a string has the method, anything
    else throws a TypeError. *)
Definition call_trim {rt : StringPrototype} (v : value) : result string :=
  match v with
  | VStr s => Ok (trim s)
  | _ => Throw TypeError
  end.

(** [const { ... } = v]: destructuring [undefined] or [null] throws a
    TypeError; an object gives its properties; of any other value (an array,
    a primitive) the handlers read properties it does not have. *)
Definition destructure (v : value) : result object :=
  match v with
  | VUndefined | VNull => Throw TypeError
  | VObj props => Ok props
  | _ => Ok []
  end.

(** *** The two methods on ASCII strings, for the examples

    On a string of ASCII characters [trim] removes leading and trailing TAB,
    LF, VT, FF, CR and SPACE, and [toLowerCase] lowers the letters A-Z.  The
    examples of this development run the handlers on ASCII strings with this
    instance; no theorem on the handlers depends on it. *)
Definition is_space (c : ascii) : bool :=
  let n := N_of_ascii c in
  (N.leb 9 n && N.leb n 13) || N.eqb n 32.

Fixpoint trimStart (s : string) : string :=
  match s with
  | EmptyString => EmptyString
  | String c s' => if is_space c then trimStart s' else s
  end.

Fixpoint trimEnd (s : string) : string :=
  match s with
  | EmptyString => EmptyString
  | String c s' =>
      match trimEnd s' with
      | EmptyString => if is_space c then EmptyString else String c EmptyString
      | t => String c t
      end
  end.

Definition ascii_trim (s : string) : string := trimEnd (trimStart s).

Definition lower_char (c : ascii) : ascii :=
  let n := N_of_ascii c in
  if N.leb 65 n && N.leb n 90 then ascii_of_N (n + 32) else c.

Fixpoint ascii_toLowerCase (s : string) : string :=
  match s with
  | EmptyString => EmptyString
  | String c s' => String (lower_char c) (ascii_toLowerCase s')
  end.

Definition ascii_strings : StringPrototype :=
  {| trim := ascii_trim; toLowerCase := ascii_toLowerCase |}.

End JS.
Import JS.

(** ** BSON object identifiers *)

Module Bson.

(** An ObjectId is twelve bytes; it is kept as the number its 24
    hexadecimal digits denote. *)
Definition ObjectId : Type := N.

Definition equals (a b : ObjectId) : bool := N.eqb a b.

Definition hex_digit (c : ascii) : option N :=
  let n := N_of_ascii c in
  if N.leb 48 n && N.leb n 57 then Some (n - 48)%N
  else if N.leb 97 n && N.leb n 102 then Some (n - 87)%N
  else if N.leb 65 n && N.leb n 70 then Some (n - 55)%N
  else None.

Fixpoint parse_hex (acc : N) (s : string) : option N :=
  match s with
  | EmptyString => Some acc
  | String c s' =>
      match hex_digit c with
      | Some d => parse_hex (16 * acc + d)%N s'
      | None => None
      end
  end.

(** [ObjectId.createFromHexString(v)]: needs a string of exactly 24
    hexadecimal digits, and throws otherwise. *)
Definition createFromHexString (v : value) : result ObjectId :=
  match v with
  | VStr s =>
      if Nat.eqb (String.length s) 24 then
        match parse_hex 0%N s with
        | Some n => Ok n
        | None => Throw BSONError
        end
      else Throw BSONError
  | _ => Throw BSONError
  end.

End Bson.
Import Bson.

(** ** The documents and the database of [server.js] *)

(** The address sub-document of a user.  The server stores whatever truthy
    value the request carries, so the fields are values. *)
Module Address.
Record t : Type := {
  street : value;
  city : value;
  zipCode : value
}.
End Address.

(** A document of the users collection.  [email] is a string in every
    document the repository writes (string literals in the demo runner, the
    normalized string in the server).  [extra] holds the fields the demo
    runner adds (location, hobbies, timestamps, tags); the server never reads
    them. *)
Module User.
Record t : Type := {
  _id : ObjectId;
  name : value;
  email : string;
  age : number;
  address : Address.t;
  extra : object
}.
End User.

(** A document of the posts collection.  [userId] is [None] for the BSON
    null the driver writes for an [undefined] property. *)
Module Post.
Record t : Type := {
  _id : ObjectId;
  title : value;
  body : value;
  userId : option ObjectId
}.
End Post.

Record DB : Type := {
  users : list User.t;
  posts : list Post.t
}.

Definition set_users (f : list User.t -> list User.t) (db : DB) : DB :=
  {| users := f (users db); posts := posts db |}.

Definition set_posts (f : list Post.t -> list Post.t) (db : DB) : DB :=
  {| users := users db; posts := f (posts db) |}.

(** ** The driver's collection methods *)

Module Collection.

(** [findOne(filter)] on the documents in natural order. *)
Definition findOne {D} (filter : D -> bool) (docs : list D) : option D :=
  find filter docs.

(** [deleteOne(filter)]: removes the first match; the count is the
    [deletedCount] of the result. *)
Fixpoint deleteOne {D} (filter : D -> bool) (docs : list D) : list D * N :=
  match docs with
  | [] => ([], 0%N)
  | d :: docs' =>
      if filter d then (docs', 1%N)
      else let (rest, n) := deleteOne filter docs' in (d :: rest, n)
  end.

(** [updateOne(filter, update)]: [update d] is [None] when applying the
    update operators leaves [d] as it is, and the new document otherwise.
    Only the first match is considered; the count is the [modifiedCount]. *)
Fixpoint updateOne {D} (filter : D -> bool) (update : D -> option D)
    (docs : list D) : list D * N :=
  match docs with
  | [] => ([], 0%N)
  | d :: docs' =>
      if filter d then
        match update d with
        | Some d' => (d' :: docs', 1%N)
        | None => (d :: docs', 0%N)
        end
      else let (rest, n) := updateOne filter update docs' in (d :: rest, n)
  end.

End Collection.

(** The update document [{ $set: { userId: uid } }] on a post. *)
Definition set_userId (uid : ObjectId) (p : Post.t) : option Post.t :=
  match Post.userId p with
  | Some old =>
      if equals old uid then None
      else Some {| Post._id := Post._id p; Post.title := Post.title p;
                   Post.body := Post.body p; Post.userId := Some uid |}
  | None =>
      Some {| Post._id := Post._id p; Post.title := Post.title p;
              Post.body := Post.body p; Post.userId := Some uid |}
  end.

(** The filter [{ _id: id }]. *)
Definition user_has_id (id : ObjectId) (u : User.t) : bool :=
  equals (User._id u) id.

Definition post_has_id (id : ObjectId) (p : Post.t) : bool :=
  equals (Post._id p) id.

(** The filter [{ email }]. *)
Definition user_has_email (e : string) (u : User.t) : bool :=
  String.eqb (User.email u) e.

(** ** HTTP responses *)

(** The JSON bodies the handlers send. *)
Inductive payload : Type :=
| Error (message : string)                          (* { error: message } *)
| ErrorMessage (e : exn)                            (* { error: err.message } *)
| Success                                           (* { success: true } *)
| SuccessUser (user : User.t)                       (* { success: true, user } *)
| SuccessId (id : ObjectId)                         (* { success: true, id } *)
| UsersWithPosts (l : list (User.t * list Post.t))  (* [{ ...u, posts }] *)
| PostsWithUser (l : list (Post.t * option User.t)) (* [{ ...p, user }] *).

Record response : Type := {
  status : Z;
  json : payload
}.

(** [res.json(b)] answers with status 200, [res.status(c).json(b)] with [c]. *)
Definition res_json (b : payload) : response := {| status := 200; json := b |}.
Definition res_status_json (c : Z) (b : payload) : response :=
  {| status := c; json := b |}.

Definition is_error (b : payload) : bool :=
  match b with
  | Error _ | ErrorMessage _ => true
  | _ => false
  end.

Definition client_error (r : response) : bool :=
  (400 <=? status r)%Z && (status r <? 500)%Z && is_error (json r).

(** ** [server.js] *)

Module Server.

(** *** The collection handles [users] and [posts] *)

Definition users_find : M DB (list User.t) :=
  db <- get ;; ret (users db).

Definition posts_find : M DB (list Post.t) :=
  db <- get ;; ret (posts db).

Definition posts_countDocuments : M DB nat :=
  db <- get ;; ret (List.length (posts db)).

Definition users_findOne (filter : User.t -> bool) : M DB (option User.t) :=
  db <- get ;; ret (Collection.findOne filter (users db)).

(** [insertOne] appends the document, which carries the identifier the
    driver generated for it, and returns that identifier as [insertedId]. *)
Definition users_insertOne (u : User.t) : M DB ObjectId :=
  modify (set_users (fun l => l ++ [u])) ;; ret (User._id u).

Definition posts_insertOne (p : Post.t) : M DB ObjectId :=
  modify (set_posts (fun l => l ++ [p])) ;; ret (Post._id p).

Definition posts_insertMany (ps : list Post.t) : M DB unit :=
  modify (set_posts (fun l => l ++ ps)).

Definition posts_deleteOne (filter : Post.t -> bool) : M DB N :=
  db <- get ;;
  let (rest, deletedCount) := Collection.deleteOne filter (posts db) in
  put (set_posts (fun _ => rest) db) ;; ret deletedCount.

Definition posts_updateOne (filter : Post.t -> bool)
    (update : Post.t -> option Post.t) : M DB N :=
  db <- get ;;
  let (rest, modifiedCount) := Collection.updateOne filter update (posts db) in
  put (set_posts (fun _ => rest) db) ;; ret modifiedCount.

(** *** The startup seed (lines 27-40) *)

(** [userList[i]?._id] *)
Definition optional_id (userList : list User.t) (i : nat) : option ObjectId :=
  option_map User._id (nth_error userList i).

(** [userList[0]._id], a TypeError when there is no element 0. *)
Definition first_id (userList : list User.t) : result ObjectId :=
  match nth_error userList 0 with
  | Some u => Ok (User._id u)
  | None => Throw TypeError
  end.

Definition sample_post (id : ObjectId) (title body : string)
    (userId : option ObjectId) : Post.t :=
  {| Post._id := id; Post.title := VStr title; Post.body := VStr body;
     Post.userId := userId |}.

(** [newId i] is the identifier the driver generates for the [i]-th document
    of the [insertMany]. *)
Definition seed (newId : nat -> ObjectId) : M DB unit :=
  count <- posts_countDocuments ;;
  if Nat.eqb count 0 then
    userList <- users_find ;;
    if negb (Nat.eqb (List.length userList) 0) then
      id0 <- lift (first_id userList) ;;
      posts_insertMany
        [ sample_post (newId 0%nat) "Hello from Emma" "Emma post content" (Some id0);
          sample_post (newId 1%nat) "Liam on the Beach" "Surfing diary"
            (optional_id userList 1);
          sample_post (newId 2%nat) "Sophia’s Cooking" "Today I made pasta"
            (optional_id userList 2);
          sample_post (newId 3%nat) "Noah’s Hike" "Reached mountain top!"
            (optional_id userList 3) ]
    else ret tt
  else ret tt.

(** *** The read endpoints *)

(** [p.userId && u._id && p.userId.equals(u._id)]: an identifier is an
    object, hence truthy; a null [userId] is falsy. *)
Definition refers_to (p : Post.t) (u : User.t) : bool :=
  match Post.userId p with
  | Some uid => equals uid (User._id u)
  | None => false
  end.

(** GET /api/users *)
Definition get_api_users : M DB response :=
  usersList <- users_find ;;
  postsList <- posts_find ;;
  ret (res_json (UsersWithPosts
    (map (fun u => (u, filter (fun p => refers_to p u) postsList)) usersList))).

(** GET /api/posts *)
Definition get_api_posts : M DB response :=
  postsList <- posts_find ;;
  usersList <- users_find ;;
  ret (res_json (PostsWithUser
    (map (fun p => (p, find (fun u => refers_to p u) usersList)) postsList))).

(** *** POST /api/users (lines 65-99) *)

(** [email.trim().toLowerCase()] *)
Definition normalize_email {rt : StringPrototype} (email : value)
    : result string :=
  match call_trim email with
  | Ok s => Ok (toLowerCase s)
  | Throw e => Throw e
  end.

(** [let address = {}]: every property of the fresh object reads as
    [undefined]. *)
Definition empty_object : Address.t :=
  {| Address.street := VUndefined; Address.city := VUndefined;
     Address.zipCode := VUndefined |}.

(** Lines 73-86: the address built from the request, in two branches. *)
Definition build_address (street city zipCode : value) : Address.t :=
  let address := empty_object in
  if truthy (or_else (or_else street city) zipCode) then
    {| Address.street := or_else street (VStr "");
       Address.city := or_else city (VStr "");
       Address.zipCode := or_else zipCode (VStr "") |}
  else
    {| Address.street := or_else (Address.street address) (VStr "");
       Address.city := or_else (Address.city address) (VStr "");
       Address.zipCode := or_else (Address.zipCode address) (VStr "") |}.

(** What [insertOne] writes for the object [user]: the driver serializes an
    [undefined] property as null.  Only [name] can be [undefined] here. *)
Definition stored_document (user : User.t) : User.t :=
  {| User._id := User._id user;
     User.name := match User.name user with VUndefined => VNull | v => v end;
     User.email := User.email user;
     User.age := User.age user;
     User.address := User.address user;
     User.extra := User.extra user |}.

(** [newId] is the identifier the driver generates for the inserted user.
    The destructuring of [req.body] in line 66 is outside the try block.
    [SuccessUser user] carries the object handed to [res.json]; the document
    written is [stored_document user]. *)
Definition post_api_users {rt : StringPrototype} (newId : ObjectId)
    (req_body : value) : M DB response :=
  reqBody <- lift (destructure req_body) ;;
  let name := prop "name" reqBody in
  let email := with_default (prop "email" reqBody) (VStr "") in
  let age := prop "age" reqBody in
  let street := prop "street" reqBody in
  let city := prop "city" reqBody in
  let zipCode := prop "zipCode" reqBody in
  try_catch
    (email <- lift (normalize_email email) ;;
     exists_ <- users_findOne (user_has_email email) ;;
     match exists_ with
     | Some _ => ret (res_status_json 400 (Error "Email already exists"))
     | None =>
         let address := build_address street city zipCode in
         let user :=
           {| User._id := newId; User.name := name; User.email := email;
              User.age := UnaryPlus age; User.address := address;
              User.extra := [] |} in
         _ <- users_insertOne (stored_document user) ;;
         ret (res_json (SuccessUser user))
     end)
    (fun _ => ret (res_status_json 500 (Error "Failed to add user"))).

(** *** POST /api/posts (lines 102-113) *)

(** The destructuring of [req.body] in line 103 and the presence check are
    outside the try block. *)
Definition post_api_posts (newId : ObjectId) (req_body : value) : M DB response :=
  reqBody <- lift (destructure req_body) ;;
  let userId := prop "userId" reqBody in
  let title := prop "title" reqBody in
  let body := prop "body" reqBody in
  if negb (truthy userId) || negb (truthy title) || negb (truthy body) then
    ret (res_status_json 400 (Error "Missing fields"))
  else
    try_catch
      (oid <- lift (createFromHexString userId) ;;
       user <- users_findOne (user_has_id oid) ;;
       match user with
       | None => ret (res_status_json 404 (Error "User not found"))
       | Some user =>
           insertedId <- posts_insertOne
             {| Post._id := newId; Post.userId := Some (User._id user);
                Post.title := title; Post.body := body |} ;;
           ret (res_json (SuccessId insertedId))
       end)
      (fun err => ret (res_status_json 500 (ErrorMessage err))).

(** *** DELETE /api/posts/:id (lines 115-123) *)

Definition delete_api_posts (id : string) : M DB response :=
  try_catch
    (oid <- lift (createFromHexString (VStr id)) ;;
     deletedCount <- posts_deleteOne (post_has_id oid) ;;
     if negb (N.eqb deletedCount 0) then ret (res_json Success)
     else ret (res_status_json 404 (Error "Not found")))
    (fun _ => ret (res_status_json 400 (Error "Invalid ID"))).

(** *** PATCH /api/posts/:id/assign (lines 125-140) *)

(** The destructuring of [req.body] in line 127 is outside the try block. *)
Definition patch_api_posts_assign (postId : string) (req_body : value)
    : M DB response :=
  reqBody <- lift (destructure req_body) ;;
  let userId := prop "userId" reqBody in
  try_catch
    (uid <- lift (createFromHexString userId) ;;
     user <- users_findOne (user_has_id uid) ;;
     match user with
     | None => ret (res_status_json 404 (Error "User not found"))
     | Some user =>
         pid <- lift (createFromHexString (VStr postId)) ;;
         modifiedCount <- posts_updateOne (post_has_id pid)
                            (set_userId (User._id user)) ;;
         if N.eqb modifiedCount 1 then ret (res_json Success)
         else ret (res_status_json 404 (Error "Post not found or not changed"))
     end)
    (fun _ => ret (res_status_json 400 (Error "Invalid ID or bad data"))).

(** *** The contracts of the specification, in its words *)

(** The four fixed sample posts, the [i]-th referencing the user at position
    [i] of [userList]. *)
Definition sample_posts (newId : nat -> ObjectId) (userList : list User.t)
    : list Post.t :=
  [ sample_post (newId 0%nat) "Hello from Emma" "Emma post content"
      (optional_id userList 0);
    sample_post (newId 1%nat) "Liam on the Beach" "Surfing diary"
      (optional_id userList 1);
    sample_post (newId 2%nat) "Sophia’s Cooking" "Today I made pasta"
      (optional_id userList 2);
    sample_post (newId 3%nat) "Noah’s Hike" "Reached mountain top!"
      (optional_id userList 3) ].

(** The seed as the specification has it: with an empty posts collection the
    four sample posts are inserted, however many users there are. *)
Definition seed_inserts_unconditionally : Prop :=
  forall newId db,
    posts db = [] ->
    seed newId db =
      (Ok tt, set_posts (fun _ => sample_posts newId (users db)) db).

(** A required field is missing when the body has no such property. *)
Definition missing (k : string) (reqBody : object) : Prop :=
  prop k reqBody = VUndefined.

(** A field passes the presence check of a handler when its value is
    truthy. *)
Definition present (k : string) (reqBody : object) : Prop :=
  truthy (prop k reqBody) = true.

(** The answer [r] rejects a request: a 4xx status with an error body, and
    the database as it was. *)
Definition rejects (out : result response * DB) (db : DB) : Prop :=
  exists r, out = (Ok r, db) /\ client_error r = true.

(** Presence validation as the specification has it, for the three
    endpoints that read fields of the body [reqBody] of a request. *)
Definition users_fields_validated {rt : StringPrototype} : Prop :=
  forall newId reqBody db,
    missing "name" reqBody \/ missing "email" reqBody \/ missing "age" reqBody ->
    rejects (post_api_users newId (VObj reqBody) db) db.

Definition posts_fields_validated : Prop :=
  forall newId reqBody db,
    missing "userId" reqBody \/ missing "title" reqBody \/ missing "body" reqBody ->
    rejects (post_api_posts newId (VObj reqBody) db) db.

Definition assign_fields_validated : Prop :=
  forall postId reqBody db,
    missing "userId" reqBody ->
    rejects (patch_api_posts_assign postId (VObj reqBody) db) db.

Definition every_mutating_endpoint_validates {rt : StringPrototype} : Prop :=
  users_fields_validated /\ posts_fields_validated /\ assign_fields_validated.


(** The post POST /api/posts creates for the user [u]. *)
Definition new_post (newId : ObjectId) (reqBody : object) (u : User.t) : Post.t :=
  {| Post._id := newId; Post.title := prop "title" reqBody;
     Post.body := prop "body" reqBody; Post.userId := Some (User._id u) |}.


(** The single rule for the address: each provided field, or the empty
    string. *)
Definition address_rule (street city zipCode : value) : Address.t :=
  {| Address.street := or_else street (VStr "");
     Address.city := or_else city (VStr "");
     Address.zipCode := or_else zipCode (VStr "") |}.

(** The email of a request after the destructuring default. *)
Definition request_email (reqBody : object) : value :=
  with_default (prop "email" reqBody) (VStr "").

(** *** Sample data *)

(** The four users the demo runner inserts, as far as the server reads
    them. *)
Definition demo_user (id : ObjectId) (name email : string) (age : Z)
    (street city zipCode : string) : User.t :=
  {| User._id := id; User.name := VStr name; User.email := email;
     User.age := UnaryPlus (VNum age);
     User.address := {| Address.street := VStr street; Address.city := VStr city;
                        Address.zipCode := VStr zipCode |};
     User.extra := [] |}.

Definition emma : User.t :=
  demo_user 1%N "Emma Wilson" "emma.wilson@example.com" 29
    "12 River Lane" "Seattle" "98101".
Definition liam : User.t :=
  demo_user 2%N "Liam Carter" "liam.carter@example.com" 24
    "88 Sunset Blvd" "San Diego" "92101".
Definition sophia : User.t :=
  demo_user 3%N "Sophia Patel" "sophia.patel@example.com" 34
    "401 Market St" "San Francisco" "94103".
Definition noah : User.t :=
  demo_user 4%N "Noah Kim" "noah.kim@example.com" 27
    "9 Lake View" "Denver" "80201".

(** The user POST /api/users returns for
    [{name: "Olivia", email: "olivia@example.com", age: 31, city: "Austin"}]
    when the driver generates the identifier 16. *)
Definition olivia : User.t :=
  {| User._id := 16%N; User.name := VStr "Olivia";
     User.email := "olivia@example.com";
     User.age := UnaryPlus (VNum 31);
     User.address := {| Address.street := VStr ""; Address.city := VStr "Austin";
                        Address.zipCode := VStr "" |};
     User.extra := [] |}.

Definition four_users : DB :=
  {| users := [emma; liam; sophia; noah]; posts := [] |}.

Definition empty_db : DB := {| users := []; posts := [] |}.

(** Identifiers for inserted documents in the examples. *)
Definition ids_from (base : N) (i : nat) : ObjectId := (base + N.of_nat i)%N.

(** The database [four_users] after the startup seed. *)
Definition seeded : DB :=
  set_posts (fun _ => sample_posts (ids_from 16%N) (users four_users)) four_users.

(** [seeded] after the second post has been assigned to the fourth user. *)
Definition reassigned : DB :=
  {| users := [emma; liam; sophia; noah];
     posts :=
       [ sample_post 16%N "Hello from Emma" "Emma post content" (Some 1%N);
         sample_post 17%N "Liam on the Beach" "Surfing diary" (Some 4%N);
         sample_post 18%N "Sophia’s Cooking" "Today I made pasta" (Some 3%N);
         sample_post 19%N "Noah’s Hike" "Reached mountain top!" (Some 4%N) ] |}.

End Server.

(** ** [demo.js]: the [MongoDemo] class *)

Module Demo.

(** The awaited driver calls of the class (and the construction of the
    client), one constructor per call site, in source order. *)
Inductive call : Type :=
| new_MongoClient | client_connect | client_close
| deleteMany_all
| createIndex_email | createIndex_age | createIndex_city | createIndex_location
| insertOne_singleUser | insertMany_multipleUsers
| find_allUsers | find_youngUsers | find_userNames | findOne_oneUser
| find_cityUsers | countDocuments_totalCount
| updateOne_john | updateMany_young | updateOne_upsert
| aggregate_pipeline
| find_nearbyUsers | aggregate_usersWithDistance
| deleteOne_single | deleteMany_bulk
| countDocuments_finalCount.

(** What the console helpers print.  A template literal is kept as its
    text. *)
Inductive line : Type :=
| section (title : string)
| success (msg : string)
| info (msg : string)
| warn (msg : string)
| errorLog (msg : string)
| console_log (msg : string)
| console_table.

(** The instance and its environment: whether [this.client] is set, the
    driver calls made so far, each with whether it threw, and the console,
    both oldest first. *)
Record Runner : Type := {
  client : bool;
  calls : list (call * bool);
  console : list line
}.

Definition initial : Runner := {| client := false; calls := []; console := [] |}.

Definition print (l : line) : M Runner unit :=
  modify (fun w => {| client := client w; calls := calls w;
                      console := console w ++ [l] |}).

Definition set_client : M Runner unit :=
  modify (fun w => {| client := true; calls := calls w; console := console w |}).

Section WithOracle.

(** [fails c]: the driver call [c] throws (its promise rejects). *)
Variable fails : call -> bool.

(** [await c]: the call is made; it returns or throws as the oracle says. *)
Definition await (c : call) : M Runner unit :=
  modify (fun w => {| client := client w; calls := calls w ++ [(c, fails c)];
                      console := console w |}) ;;
  if fails c then throw DriverError else ret tt.

(** Lines 29-44. *)
Definition connect : M Runner unit :=
  try_catch
    (await new_MongoClient ;;
     set_client ;;
     await client_connect ;;
     print (success "Connected to MongoDB") ;;
     print (info "Database   : ${DB_NAME}") ;;
     print (info "Collection : ${COLLECTION_NAME}"))
    (fun error =>
       print (errorLog "Connection error") ;;
       throw error).

(** Lines 46-51. *)
Definition disconnect : M Runner unit :=
  w <- get ;;
  if client w then
    await client_close ;;
    print (success "Disconnected from MongoDB")
  else ret tt.

(** Lines 53-69. *)
Definition createIndexes : M Runner unit :=
  print (section "Index Creation") ;;
  try_catch
    (await createIndex_email ;;
     await createIndex_age ;;
     await createIndex_city ;;
     await createIndex_location ;;
     print (success "Indexes created successfully") ;;
     print (info "email (unique)") ;;
     print (info "age") ;;
     print (info "address.city") ;;
     print (info "location (2dsphere)"))
    (fun error =>
       print (errorLog "Index creation failed")).

(** Lines 71-159. *)
Definition insertDocuments : M Runner unit :=
  print (section "Insert Documents") ;;
  try_catch
    (await insertOne_singleUser ;;
     print (success "Single user inserted") ;;
     print (info "ID: ${result.insertedId}") ;;
     await insertMany_multipleUsers ;;
     print (success "Multiple users inserted") ;;
     print console_table)
    (fun error =>
       print (errorLog "Insert error") ;;
       throw error).

(** Lines 161-188. *)
Definition readDocuments : M Runner unit :=
  print (section "Read Documents") ;;
  try_catch
    (await find_allUsers ;;
     await find_youngUsers ;;
     await find_userNames ;;
     await findOne_oneUser ;;
     await find_cityUsers ;;
     await countDocuments_totalCount ;;
     print (success "Total users: ${allUsers.length}") ;;
     print (success "Users under 30: ${youngUsers.length}") ;;
     print (success "Users in NY/LA (25+): ${cityUsers.length}") ;;
     print (info "Lookup result: ${oneUser ? oneUser.name : 'Not Found'}") ;;
     print (info "Document count: ${totalCount}") ;;
     print (console_log "📇 Names & Emails") ;;
     print console_table)
    (fun error =>
       print (errorLog "Read error") ;;
       throw error).

(** Lines 190-250. *)
Definition updateDocuments : M Runner unit :=
  print (section "Update Documents") ;;
  try_catch
    (await updateOne_john ;;
     print (success "Updated John Doe (${updateResult.modifiedCount})") ;;
     await updateMany_young ;;
     print (success "Bulk updated users (${bulkUpdateResult.modifiedCount})") ;;
     await updateOne_upsert ;;
     print (success "${upsertResult.upsertedId ? 'New user created via upsert' : 'Existing user updated'}"))
    (fun error =>
       print (errorLog "Update error") ;;
       throw error).

(** Lines 252-281. *)
Definition runAggregation : M Runner unit :=
  print (section "Aggregation") ;;
  try_catch
    (await aggregate_pipeline ;;
     print console_table)
    (fun error =>
       print (errorLog "Aggregation error")).

(** Lines 283-326. *)
Definition runGeospatialQueries : M Runner unit :=
  print (section "Geospatial Queries") ;;
  try_catch
    (await find_nearbyUsers ;;
     print (success "Users within 1000km of NYC: ${nearbyUsers.length}") ;;
     print console_table ;;
     await aggregate_usersWithDistance ;;
     print (console_log "📏 Distance from NYC (km)") ;;
     print console_table)
    (fun error =>
       print (errorLog "Geospatial error")).

(** Lines 328-339. *)
Definition deleteDocuments : M Runner unit :=
  print (section "Delete Documents") ;;
  try_catch
    (await deleteOne_single ;;
     await deleteMany_bulk ;;
     print (warn "Single deleted: ${single.deletedCount}") ;;
     print (warn "Bulk deleted: ${bulk.deletedCount}"))
    (fun error =>
       print (errorLog "Delete error")).

(** Lines 341-365. *)
Definition runDemo : M Runner unit :=
  print (section "MongoDB Demo Started 🚀") ;;
  try_finally
    (try_catch
       (connect ;;
        await deleteMany_all ;;
        print (warn "Cleared existing documents") ;;
        createIndexes ;;
        insertDocuments ;;
        readDocuments ;;
        updateDocuments ;;
        runAggregation ;;
        runGeospatialQueries ;;
        deleteDocuments ;;
        await countDocuments_finalCount ;;
        print (success "Final document count: ${finalCount}") ;;
        print (success "Demo completed successfully 🎉"))
       (fun error =>
          print (errorLog "Demo failed")))
    disconnect.

End WithOracle.

(** *** The error boundaries of the run, as properties of a run *)

(** The steps of [runDemo] that are methods with a try/catch of their own. *)
Inductive step : Type :=
| Connect
| CreateIndexes
| InsertDocuments
| ReadDocuments
| UpdateDocuments
| RunAggregation
| RunGeospatialQueries
| DeleteDocuments.

(** The driver calls inside the try block of a step. *)
Definition calls_of (s : step) : list call :=
  match s with
  | Connect => [new_MongoClient; client_connect]
  | CreateIndexes =>
      [createIndex_email; createIndex_age; createIndex_city; createIndex_location]
  | InsertDocuments => [insertOne_singleUser; insertMany_multipleUsers]
  | ReadDocuments =>
      [find_allUsers; find_youngUsers; find_userNames; findOne_oneUser;
       find_cityUsers; countDocuments_totalCount]
  | UpdateDocuments => [updateOne_john; updateMany_young; updateOne_upsert]
  | RunAggregation => [aggregate_pipeline]
  | RunGeospatialQueries => [find_nearbyUsers; aggregate_usersWithDistance]
  | DeleteDocuments => [deleteOne_single; deleteMany_bulk]
  end.

(** What the catch block of a step logs. *)
Definition message (s : step) : string :=
  match s with
  | Connect => "Connection error"
  | CreateIndexes => "Index creation failed"
  | InsertDocuments => "Insert error"
  | ReadDocuments => "Read error"
  | UpdateDocuments => "Update error"
  | RunAggregation => "Aggregation error"
  | RunGeospatialQueries => "Geospatial error"
  | DeleteDocuments => "Delete error"
  end.

(** The driver calls that follow a step in the try block of [runDemo], in
    order: the rest of the run. *)
Fixpoint rest_from (ss : list step) : list call :=
  match ss with
  | [] => [countDocuments_finalCount]
  | s :: ss' => calls_of s ++ rest_from ss'
  end.

Definition after (s : step) : list call :=
  match s with
  | Connect =>
      deleteMany_all ::
      rest_from [CreateIndexes; InsertDocuments; ReadDocuments; UpdateDocuments;
                 RunAggregation; RunGeospatialQueries; DeleteDocuments]
  | CreateIndexes =>
      rest_from [InsertDocuments; ReadDocuments; UpdateDocuments;
                 RunAggregation; RunGeospatialQueries; DeleteDocuments]
  | InsertDocuments =>
      rest_from [ReadDocuments; UpdateDocuments;
                 RunAggregation; RunGeospatialQueries; DeleteDocuments]
  | ReadDocuments =>
      rest_from [UpdateDocuments; RunAggregation; RunGeospatialQueries;
                 DeleteDocuments]
  | UpdateDocuments =>
      rest_from [RunAggregation; RunGeospatialQueries; DeleteDocuments]
  | RunAggregation => rest_from [RunGeospatialQueries; DeleteDocuments]
  | RunGeospatialQueries => rest_from [DeleteDocuments]
  | DeleteDocuments => rest_from []
  end.

(** The state in which a run from a fresh instance ends. *)
Definition final (fails : call -> bool) : Runner := snd (runDemo fails initial).

(** A step fails in a run when one of its driver calls is made and throws. *)
Definition failed (w : Runner) (s : step) : Prop :=
  exists c, In c (calls_of s) /\ In (c, true) (calls w).

Definition made (w : Runner) (c : call) : Prop :=
  In c (map fst (calls w)).

Definition logged (w : Runner) (l : line) : Prop :=
  In l (console w).

(** The failure of [s] aborts the rest of the run: the catch of [runDemo]
    logs, and no later driver call of the try block is made. *)
Definition aborts_after (w : Runner) (s : step) : Prop :=
  logged w (errorLog "Demo failed") /\
  forall c, In c (after s) -> ~ made w c.

(** The run continues to the next step: the driver call that follows [s] in
    [runDemo] is made. *)
Definition continues_after (w : Runner) (s : step) : Prop :=
  match after s with
  | c :: _ => made w c
  | [] => True
  end.

(** The steps whose catch block ends in [throw error]. *)
Definition rethrows (s : step) : bool :=
  match s with
  | Connect | InsertDocuments | ReadDocuments | UpdateDocuments => true
  | CreateIndexes | RunAggregation | RunGeospatialQueries | DeleteDocuments => false
  end.

(** The steps the specification marks critical. *)
Definition marked_critical (s : step) : bool :=
  match s with
  | Connect | InsertDocuments => true
  | _ => false
  end.

(** The contract of the error boundaries at the end [w] of a run, for a
    given set of critical steps: a failing step is logged, and aborts the run
    when critical and lets it continue otherwise. *)
Definition boundaries_hold (critical : step -> bool) (w : Runner) : Prop :=
  forall s,
    failed w s ->
    logged w (errorLog (message s)) /\
    if critical s then aborts_after w s else continues_after w s.

(** The claim on the orchestrator as the specification words it: the
    critical steps are connect and insert. *)
Definition error_boundaries_as_specified : Prop :=
  forall fails, boundaries_hold marked_critical (final fails).

(** An oracle under which exactly the call [c] throws. *)
Definition call_eqb (a b : call) : bool :=
  match a, b with
  | new_MongoClient, new_MongoClient | client_connect, client_connect
  | client_close, client_close | deleteMany_all, deleteMany_all
  | createIndex_email, createIndex_email | createIndex_age, createIndex_age
  | createIndex_city, createIndex_city
  | createIndex_location, createIndex_location
  | insertOne_singleUser, insertOne_singleUser
  | insertMany_multipleUsers, insertMany_multipleUsers
  | find_allUsers, find_allUsers | find_youngUsers, find_youngUsers
  | find_userNames, find_userNames | findOne_oneUser, findOne_oneUser
  | find_cityUsers, find_cityUsers
  | countDocuments_totalCount, countDocuments_totalCount
  | updateOne_john, updateOne_john | updateMany_young, updateMany_young
  | updateOne_upsert, updateOne_upsert
  | aggregate_pipeline, aggregate_pipeline
  | find_nearbyUsers, find_nearbyUsers
  | aggregate_usersWithDistance, aggregate_usersWithDistance
  | deleteOne_single, deleteOne_single | deleteMany_bulk, deleteMany_bulk
  | countDocuments_finalCount, countDocuments_finalCount => true
  | _, _ => false
  end.

Definition only (c : call) : call -> bool := call_eqb c.

(** *** The same contract, decided on a given end state *)

Definition all_steps : list step :=
  [Connect; CreateIndexes; InsertDocuments; ReadDocuments; UpdateDocuments;
   RunAggregation; RunGeospatialQueries; DeleteDocuments].

Definition threw (w : Runner) (c : call) : bool :=
  existsb (fun e => call_eqb c (fst e) && snd e) (calls w).

Definition failedb (w : Runner) (s : step) : bool :=
  existsb (threw w) (calls_of s).

Definition madeb (w : Runner) (c : call) : bool :=
  existsb (call_eqb c) (map fst (calls w)).

Definition logged_error (w : Runner) (m : string) : bool :=
  existsb (fun l => match l with errorLog m' => String.eqb m m' | _ => false end)
    (console w).

Definition aborts_afterb (w : Runner) (s : step) : bool :=
  logged_error w "Demo failed" && forallb (fun c => negb (madeb w c)) (after s).

Definition continues_afterb (w : Runner) (s : step) : bool :=
  match after s with
  | c :: _ => madeb w c
  | [] => true
  end.

Definition boundaries_holdb (critical : step -> bool) (w : Runner) : bool :=
  forallb
    (fun s =>
       implb (failedb w s)
         (logged_error w (message s) &&
          if critical s then aborts_afterb w s else continues_afterb w s))
    all_steps.

End Demo.

(** ** [server.js]: the rendered pages, and invariants of the store *)

Module Pages.
Import Server.

(** [res.render(view, locals)]: the template and the data handed to it. *)
Inductive rendering : Type :=
| render_users (view : string) (users : list (User.t * list Post.t))
| render_posts (view : string) (posts : list (Post.t * value))
    (users : list User.t).

(** GET / (lines 143-151) *)
Definition get_index : M DB rendering :=
  usersList <- users_find ;;
  postsList <- posts_find ;;
  ret (render_users "index"
    (map (fun u => (u, filter (fun p => refers_to p u) postsList)) usersList)).

(** GET /users (lines 153-161) *)
Definition get_users : M DB rendering :=
  usersList <- users_find ;;
  postsList <- posts_find ;;
  ret (render_users "users"
    (map (fun u => (u, filter (fun p => refers_to p u) postsList)) usersList)).

(** GET /posts (lines 163-171): [userName] is the name of the user found, or
    [undefined]. *)
Definition get_posts : M DB rendering :=
  postsList <- posts_find ;;
  usersList <- users_find ;;
  ret (render_posts "posts"
    (map (fun post =>
            let foundUser := find (fun u => refers_to post u) usersList in
            (post, match foundUser with
                   | Some u => User.name u
                   | None => VUndefined
                   end))
         postsList)
    usersList).

End Pages.

(** The store keeps [_id] unique within a collection. *)
Definition unique_ids (db : DB) : Prop :=
  NoDup (map User._id (users db)) /\ NoDup (map Post._id (posts db)).

(** The statuses the JSON handlers answer with. *)
Definition answered (out : result response * DB) (statuses : list Z)
    (db : DB) : Prop :=
  exists r db',
    out = (Ok r, db') /\ In (status r) statuses /\
    (status r <> 200%Z -> db' = db).

(** ** [demo.js]: a run as a whole *)

Module Run.
Import Demo.

(** The driver calls of [runDemo] in program order, the closing of the
    client in the [finally] block last. *)
Definition program : list call :=
  calls_of Connect ++ [deleteMany_all] ++
  rest_from [CreateIndexes; InsertDocuments; ReadDocuments; UpdateDocuments;
             RunAggregation; RunGeospatialQueries; DeleteDocuments] ++
  [client_close].

(** The calls whose exception is caught and not rethrown by the step around
    them, and the closing of the client, which runs after the catch of
    [runDemo]. *)
Definition swallowed : list call :=
  calls_of CreateIndexes ++ calls_of RunAggregation ++
  calls_of RunGeospatialQueries ++ calls_of DeleteDocuments ++ [client_close].

(** [l] is [p] with some elements left out. *)
Inductive subsequence {A : Type} : list A -> list A -> Prop :=
| sub_nil : forall p, subsequence [] p
| sub_take : forall x l p, subsequence l p -> subsequence (x :: l) (x :: p)
| sub_skip : forall y l p, subsequence l p -> subsequence l (y :: p).

Fixpoint is_subsequence (l p : list call) : bool :=
  match p with
  | [] => match l with [] => true | _ :: _ => false end
  | y :: p' =>
      match l with
      | [] => true
      | x :: l' =>
          if call_eqb x y then is_subsequence l' p' else is_subsequence l p'
      end
  end.

Fixpoint distinct (l : list call) : bool :=
  match l with
  | [] => true
  | x :: l' => negb (existsb (call_eqb x) l') && distinct l'
  end.

(** The call [c] was made and returned. *)
Definition returned (w : Runner) (c : call) : bool :=
  existsb (fun e => call_eqb c (fst e) && negb (snd e)) (calls w).

Definition logged_success (w : Runner) (m : string) : bool :=
  existsb (fun l => match l with success m' => String.eqb m m' | _ => false end)
    (console w).

(** Within a list of calls of one try block: a call that threw is followed
    by no call of the block. *)
Fixpoint skips_rest (w : Runner) (cs : list call) : bool :=
  match cs with
  | [] => true
  | c :: rest =>
      implb (threw w c) (forallb (fun c' => negb (madeb w c')) rest) &&
      skips_rest w rest
  end.

(** The outcome of [runDemo] against the calls made. *)
Definition outcome_check (out : result unit * Runner) : bool :=
  match fst out with
  | Ok _ => negb (threw (snd out) client_close)
  | Throw DriverError => threw (snd out) client_close
  | Throw _ => false
  end.

Definition close_check (w : Runner) : bool :=
  Bool.eqb (madeb w client_close) (returned w new_MongoClient) &&
  implb (madeb w client_close)
        (call_eqb (last (map fst (calls w)) new_MongoClient) client_close) &&
  Bool.eqb (logged_success w "Disconnected from MongoDB")
           (returned w client_close).

Definition completion_check (w : Runner) : bool :=
  Bool.eqb (logged_success w "Demo completed successfully 🎉")
           (forallb (fun e => implb (snd e) (existsb (call_eqb (fst e)) swallowed))
                    (calls w)) &&
  Bool.eqb (logged_success w "Demo completed successfully 🎉")
           (negb (logged_error w "Demo failed")).

Definition order_check (w : Runner) : bool :=
  is_subsequence (map fst (calls w)) program &&
  distinct (map fst (calls w)) &&
  forallb (fun s => skips_rest w (calls_of s)) all_steps.

Definition run_check (out : result unit * Runner) : bool :=
  outcome_check out && close_check (snd out) && completion_check (snd out) &&
  order_check (snd out).

End Run.

(** ** The second demo script: the [MongoDemo] class without the
    geospatial step *)

Module Demo2.

(** The awaited driver calls of the script (and the construction of the
    client), one constructor per call site, in source order. *)
Inductive call : Type :=
| new_MongoClient | client_connect | client_close
| deleteMany_all
| createIndex_email | createIndex_age | createIndex_city | createIndex_location
| insertOne_singleUser | insertMany_multipleUsers
| find_allUsers | find_youngUsers | find_basicInfo
| updateOne_updateResult | updateMany_bulkUpdate
| aggregate_result
| deleteMany_result
| countDocuments_finalCount.

(** The instance and its environment, as for the first script; the console
    helpers are the same. *)
Record Runner : Type := {
  client : bool;
  calls : list (call * bool);
  console : list Demo.line
}.

Definition initial : Runner := {| client := false; calls := []; console := [] |}.

Definition print (l : Demo.line) : M Runner unit :=
  modify (fun w => {| client := client w; calls := calls w;
                      console := console w ++ [l] |}).

Definition set_client : M Runner unit :=
  modify (fun w => {| client := true; calls := calls w; console := console w |}).

Section WithOracle.

Variable fails : call -> bool.

Definition await (c : call) : M Runner unit :=
  modify (fun w => {| client := client w; calls := calls w ++ [(c, fails c)];
                      console := console w |}) ;;
  if fails c then throw DriverError else ret tt.

Definition connect : M Runner unit :=
  try_catch
    (print (Demo.section "Connecting to MongoDB") ;;
     print (Demo.info "Initializing MongoDB client...") ;;
     await new_MongoClient ;;
     set_client ;;
     await client_connect ;;
     print (Demo.success "Successfully connected to MongoDB") ;;
     print (Demo.info "Database in use   : ${DB_NAME}") ;;
     print (Demo.info "Collection in use : ${COLLECTION_NAME}"))
    (fun error =>
       print (Demo.errorLog "Failed to connect to MongoDB") ;;
       throw error).

Definition disconnect : M Runner unit :=
  w <- get ;;
  if client w then
    await client_close ;;
    print (Demo.success "MongoDB connection closed safely")
  else ret tt.

Definition createIndexes : M Runner unit :=
  print (Demo.section "Creating Indexes") ;;
  print (Demo.info "Indexes improve search performance and enforce rules like unique emails") ;;
  try_catch
    (await createIndex_email ;;
     await createIndex_age ;;
     await createIndex_city ;;
     await createIndex_location ;;
     print (Demo.success "All indexes created successfully") ;;
     print (Demo.info "Unique index on email") ;;
     print (Demo.info "Index on age") ;;
     print (Demo.info "Index on address.city") ;;
     print (Demo.info "Geospatial index on location"))
    (fun error =>
       print (Demo.errorLog "Index creation failed")).

Definition insertDocuments : M Runner unit :=
  print (Demo.section "Inserting Sample Users") ;;
  print (Demo.info "Adding demo users into the database") ;;
  try_catch
    (await insertOne_singleUser ;;
     print (Demo.success "Inserted 1 main user") ;;
     print (Demo.info "User ID: ${result.insertedId}") ;;
     await insertMany_multipleUsers ;;
     print (Demo.success "Inserted additional users") ;;
     print Demo.console_table)
    (fun error =>
       print (Demo.errorLog "Error while inserting documents") ;;
       throw error).

Definition readDocuments : M Runner unit :=
  print (Demo.section "Reading Data from Database") ;;
  print (Demo.info "Fetching users using different query examples") ;;
  try_catch
    (await find_allUsers ;;
     await find_youngUsers ;;
     await find_basicInfo ;;
     print (Demo.success "Total users found: ${allUsers.length}") ;;
     print (Demo.success "Users younger than 30: ${youngUsers.length}") ;;
     print (Demo.console_log "📇 Basic User Information") ;;
     print Demo.console_table)
    (fun error =>
       print (Demo.errorLog "Failed while reading data") ;;
       throw error).

Definition updateDocuments : M Runner unit :=
  print (Demo.section "Updating Existing Users") ;;
  print (Demo.info "Modifying user data using update operations") ;;
  try_catch
    (await updateOne_updateResult ;;
     print (Demo.success "Updated Emma Wilson (${updateResult.modifiedCount} document)") ;;
     await updateMany_bulkUpdate ;;
     print (Demo.success "Tagged ${bulkUpdate.modifiedCount} users as young-adults"))
    (fun error =>
       print (Demo.errorLog "Update operation failed") ;;
       throw error).

Definition runAggregation : M Runner unit :=
  print (Demo.section "Running Aggregation") ;;
  print (Demo.info "Grouping users by city and calculating statistics") ;;
  try_catch
    (await aggregate_result ;;
     print Demo.console_table)
    (fun error =>
       print (Demo.errorLog "Aggregation failed")).

Definition deleteDocuments : M Runner unit :=
  print (Demo.section "Deleting Demo Data") ;;
  print (Demo.info "Cleaning up users created during this demo") ;;
  try_catch
    (await deleteMany_result ;;
     print (Demo.warn "Deleted ${result.deletedCount} users from young-adults group"))
    (fun error =>
       print (Demo.errorLog "Delete operation failed")).

Definition runDemo : M Runner unit :=
  print (Demo.section "MongoDB Demo Started 🚀") ;;
  try_finally
    (try_catch
       (connect ;;
        print (Demo.warn "Removing any existing demo data") ;;
        await deleteMany_all ;;
        createIndexes ;;
        insertDocuments ;;
        readDocuments ;;
        updateDocuments ;;
        runAggregation ;;
        deleteDocuments ;;
        await countDocuments_finalCount ;;
        print (Demo.success "Final number of users in collection: ${finalCount}") ;;
        print (Demo.success "Demo completed successfully 🎉"))
       (fun error =>
          print (Demo.errorLog "Demo execution failed")))
    disconnect.

End WithOracle.

(** The steps with a try/catch of their own. *)
Inductive step : Type :=
| Connect
| CreateIndexes
| InsertDocuments
| ReadDocuments
| UpdateDocuments
| RunAggregation
| DeleteDocuments.

Definition all_steps : list step :=
  [Connect; CreateIndexes; InsertDocuments; ReadDocuments; UpdateDocuments;
   RunAggregation; DeleteDocuments].

Definition calls_of (s : step) : list call :=
  match s with
  | Connect => [new_MongoClient; client_connect]
  | CreateIndexes =>
      [createIndex_email; createIndex_age; createIndex_city; createIndex_location]
  | InsertDocuments => [insertOne_singleUser; insertMany_multipleUsers]
  | ReadDocuments => [find_allUsers; find_youngUsers; find_basicInfo]
  | UpdateDocuments => [updateOne_updateResult; updateMany_bulkUpdate]
  | RunAggregation => [aggregate_result]
  | DeleteDocuments => [deleteMany_result]
  end.

Definition message (s : step) : string :=
  match s with
  | Connect => "Failed to connect to MongoDB"
  | CreateIndexes => "Index creation failed"
  | InsertDocuments => "Error while inserting documents"
  | ReadDocuments => "Failed while reading data"
  | UpdateDocuments => "Update operation failed"
  | RunAggregation => "Aggregation failed"
  | DeleteDocuments => "Delete operation failed"
  end.

Fixpoint rest_from (ss : list step) : list call :=
  match ss with
  | [] => [countDocuments_finalCount]
  | s :: ss' => calls_of s ++ rest_from ss'
  end.

(** The driver calls that follow a step in the try block of [runDemo]. *)
Definition after (s : step) : list call :=
  match s with
  | Connect =>
      deleteMany_all ::
      rest_from [CreateIndexes; InsertDocuments; ReadDocuments; UpdateDocuments;
                 RunAggregation; DeleteDocuments]
  | CreateIndexes =>
      rest_from [InsertDocuments; ReadDocuments; UpdateDocuments;
                 RunAggregation; DeleteDocuments]
  | InsertDocuments =>
      rest_from [ReadDocuments; UpdateDocuments; RunAggregation; DeleteDocuments]
  | ReadDocuments => rest_from [UpdateDocuments; RunAggregation; DeleteDocuments]
  | UpdateDocuments => rest_from [RunAggregation; DeleteDocuments]
  | RunAggregation => rest_from [DeleteDocuments]
  | DeleteDocuments => rest_from []
  end.

(** The steps whose catch block ends in [throw error]. *)
Definition rethrows (s : step) : bool :=
  match s with
  | Connect | InsertDocuments | ReadDocuments | UpdateDocuments => true
  | CreateIndexes | RunAggregation | DeleteDocuments => false
  end.

Definition final (fails : call -> bool) : Runner := snd (runDemo fails initial).

Definition failed (w : Runner) (s : step) : Prop :=
  exists c, In c (calls_of s) /\ In (c, true) (calls w).

Definition made (w : Runner) (c : call) : Prop :=
  In c (map fst (calls w)).

Definition logged (w : Runner) (l : Demo.line) : Prop :=
  In l (console w).

Definition aborts_after (w : Runner) (s : step) : Prop :=
  logged w (Demo.errorLog "Demo execution failed") /\
  forall c, In c (after s) -> ~ made w c.

Definition continues_after (w : Runner) (s : step) : Prop :=
  match after s with
  | c :: _ => made w c
  | [] => True
  end.

Definition call_eqb (a b : call) : bool :=
  match a, b with
  | new_MongoClient, new_MongoClient => true
  | client_connect, client_connect => true
  | client_close, client_close => true
  | deleteMany_all, deleteMany_all => true
  | createIndex_email, createIndex_email => true
  | createIndex_age, createIndex_age => true
  | createIndex_city, createIndex_city => true
  | createIndex_location, createIndex_location => true
  | insertOne_singleUser, insertOne_singleUser => true
  | insertMany_multipleUsers, insertMany_multipleUsers => true
  | find_allUsers, find_allUsers => true
  | find_youngUsers, find_youngUsers => true
  | find_basicInfo, find_basicInfo => true
  | updateOne_updateResult, updateOne_updateResult => true
  | updateMany_bulkUpdate, updateMany_bulkUpdate => true
  | aggregate_result, aggregate_result => true
  | deleteMany_result, deleteMany_result => true
  | countDocuments_finalCount, countDocuments_finalCount => true
  | _, _ => false
  end.

Definition only (c : call) : call -> bool := call_eqb c.

Definition threw (w : Runner) (c : call) : bool :=
  existsb (fun e => call_eqb c (fst e) && snd e) (calls w).

Definition returned (w : Runner) (c : call) : bool :=
  existsb (fun e => call_eqb c (fst e) && negb (snd e)) (calls w).

Definition madeb (w : Runner) (c : call) : bool :=
  existsb (call_eqb c) (map fst (calls w)).

Definition logged_error (w : Runner) (m : string) : bool :=
  existsb (fun l => match l with Demo.errorLog m' => String.eqb m m' | _ => false end)
    (console w).

Definition logged_success (w : Runner) (m : string) : bool :=
  existsb (fun l => match l with Demo.success m' => String.eqb m m' | _ => false end)
    (console w).

Definition boundaries_check (w : Runner) : bool :=
  forallb
    (fun s =>
       implb (existsb (threw w) (calls_of s))
         (logged_error w (message s) &&
          if rethrows s
          then logged_error w "Demo execution failed" &&
               forallb (fun c => negb (madeb w c)) (after s)
          else match after s with
               | c :: _ => madeb w c
               | [] => true
               end))
    all_steps.

Definition outcome_check (out : result unit * Runner) : bool :=
  match fst out with
  | Ok _ => negb (threw (snd out) client_close)
  | Throw DriverError => threw (snd out) client_close
  | Throw _ => false
  end.

Definition close_check (w : Runner) : bool :=
  Bool.eqb (madeb w client_close) (returned w new_MongoClient) &&
  implb (madeb w client_close)
        (call_eqb (last (map fst (calls w)) new_MongoClient) client_close) &&
  Bool.eqb (logged_success w "Demo completed successfully 🎉")
           (negb (logged_error w "Demo execution failed")).

Definition run_check (out : result unit * Runner) : bool :=
  boundaries_check (snd out) && outcome_check out && close_check (snd out).

End Demo2.

(** What a handler that destructures [req.body] before its try block does
    with a request: it throws what the destructuring throws, the database
    untouched, or else answers as [answered] says. *)
Definition handled (out : result response * DB) (statuses : list Z)
    (db : DB) (req_body : value) : Prop :=
  match destructure req_body with
  | Ok _ => answered out statuses db
  | Throw e => out = (Throw e, db)
  end.

(** * Theorems *)

Import Demo.
Import Server.

(** Runs the calls of [runDemo] in program order against the oracle [fails],
    splitting on each one the run reaches. *)
Ltac ask fails c :=
  try match goal with
      | |- context [fails c] => destruct (fails c)
      end.

Ltac run_oracle fails :=
  cbv [final runDemo connect disconnect createIndexes insertDocuments
       readDocuments updateDocuments runAggregation runGeospatialQueries
       deleteDocuments await print set_client bind ret throw try_catch
       try_finally get modify initial snd client calls console app];
  ask fails new_MongoClient; ask fails client_connect;
  ask fails deleteMany_all;
  ask fails createIndex_email; ask fails createIndex_age;
  ask fails createIndex_city; ask fails createIndex_location;
  ask fails insertOne_singleUser; ask fails insertMany_multipleUsers;
  ask fails find_allUsers; ask fails find_youngUsers; ask fails find_userNames;
  ask fails findOne_oneUser; ask fails find_cityUsers;
  ask fails countDocuments_totalCount;
  ask fails updateOne_john; ask fails updateMany_young;
  ask fails updateOne_upsert;
  ask fails aggregate_pipeline;
  ask fails find_nearbyUsers; ask fails aggregate_usersWithDistance;
  ask fails deleteOne_single; ask fails deleteMany_bulk;
  ask fails countDocuments_finalCount;
  ask fails client_close.

Lemma boundaries_holdb_runDemo (fails : call -> bool) :
  boundaries_holdb rethrows (final fails) = true.
Proof.
  run_oracle fails; reflexivity.
Qed.

Lemma call_eqb_eq (a b : call) : call_eqb a b = true <-> a = b.
Proof.
  split.
  - destruct a, b; simpl; intros H; try reflexivity; discriminate H.
  - intros ->. destruct b; reflexivity.
Qed.

Lemma threw_complete (w : Runner) (c : call) :
  In (c, true) (calls w) -> threw w c = true.
Proof.
  intros H. unfold threw. apply existsb_exists.
  exists (c, true). split; [exact H|].
  simpl. rewrite andb_true_r. now apply call_eqb_eq.
Qed.

Lemma failedb_complete (w : Runner) (s : step) :
  failed w s -> failedb w s = true.
Proof.
  intros (c & Hc & Hin). unfold failedb. apply existsb_exists.
  exists c. split; [exact Hc|]. now apply threw_complete.
Qed.

Lemma madeb_made (w : Runner) (c : call) :
  madeb w c = true <-> made w c.
Proof.
  unfold madeb, made. rewrite existsb_exists. split.
  - intros (c' & Hin & Heq). apply call_eqb_eq in Heq. now subst.
  - intros Hin. exists c. split; [exact Hin|]. now apply call_eqb_eq.
Qed.

Lemma logged_error_sound (w : Runner) (m : string) :
  logged_error w m = true -> logged w (errorLog m).
Proof.
  unfold logged_error, logged. rewrite existsb_exists.
  intros (l & Hin & Hl). destruct l; try discriminate Hl.
  apply String.eqb_eq in Hl. now subst.
Qed.

Lemma aborts_afterb_sound (w : Runner) (s : step) :
  aborts_afterb w s = true -> aborts_after w s.
Proof.
  unfold aborts_afterb, aborts_after. intros H.
  apply andb_true_iff in H. destruct H as [Hlog Hnone]. split.
  - now apply logged_error_sound.
  - intros c Hc Hmade. rewrite forallb_forall in Hnone.
    specialize (Hnone c Hc). apply madeb_made in Hmade.
    rewrite Hmade in Hnone. discriminate Hnone.
Qed.

Lemma continues_afterb_sound (w : Runner) (s : step) :
  continues_afterb w s = true -> continues_after w s.
Proof.
  unfold continues_afterb, continues_after.
  destruct (after s) as [|c rest]; [trivial|]. apply madeb_made.
Qed.

Lemma all_steps_complete (s : step) : In s all_steps.
Proof. destruct s; simpl; tauto. Qed.

Lemma boundaries_holdb_sound (critical : step -> bool) (w : Runner) :
  boundaries_holdb critical w = true -> boundaries_hold critical w.
Proof.
  intros H s Hfail. unfold boundaries_holdb in H.
  rewrite forallb_forall in H. specialize (H s (all_steps_complete s)).
  rewrite (failedb_complete w s Hfail) in H. simpl in H.
  apply andb_true_iff in H. destruct H as [Hlog Hrest]. split.
  - now apply logged_error_sound.
  - destruct (critical s).
    + now apply aborts_afterb_sound.
    + now apply continues_afterb_sound.
Qed.

(** C2, amended.  In a run of [runDemo], whatever driver calls fail: the
    failure of a step is logged by the step; when the step is connect,
    insertDocuments, readDocuments or updateDocuments the error is rethrown,
    the run logs "Demo failed" and makes no later driver call of its try
    block; when the step is createIndexes, runAggregation,
    runGeospatialQueries or deleteDocuments the run goes on to the driver
    call that follows the step. *)
Theorem runDemo_error_boundaries (fails : call -> bool) (s : step) :
  failed (final fails) s ->
  logged (final fails) (errorLog (message s)) /\
  if rethrows s then aborts_after (final fails) s
  else continues_after (final fails) s.
Proof.
  revert s. apply boundaries_holdb_sound, boundaries_holdb_runDemo.
Qed.

Lemma runDemo_error_boundaries_witness :
  failed (final (only find_allUsers)) ReadDocuments /\
  logged (final (only find_allUsers)) (errorLog "Read error") /\
  aborts_after (final (only find_allUsers)) ReadDocuments.
Proof.
  assert (Hfail : failed (final (only find_allUsers)) ReadDocuments).
  { exists find_allUsers. split; vm_compute; tauto. }
  split; [exact Hfail|].
  exact (runDemo_error_boundaries (only find_allUsers) ReadDocuments Hfail).
Defined.

(** C2, as stated, fails: when the first query of readDocuments throws, the
    step is not one of connect and insert, and yet the run does not continue
    to updateDocuments. *)
Lemma read_failure_aborts_run : ~ error_boundaries_as_specified.
Proof.
  intros H.
  destruct (H (only find_allUsers) ReadDocuments) as [_ Hcont].
  - exists find_allUsers. split; vm_compute; tauto.
  - vm_compute in Hcont.
    repeat (destruct Hcont as [Hcont | Hcont]; [discriminate Hcont|]).
    exact Hcont.
Qed.

(** ** The server *)

Lemma find_email_present (e : string) (l : list User.t) :
  In e (map User.email l) -> exists u, find (user_has_email e) l = Some u.
Proof.
  induction l as [|u l IH]; simpl; [contradiction|].
  intros [Hu | Hl]; unfold user_has_email at 1.
  - rewrite Hu, String.eqb_refl. now exists u.
  - destruct (String.eqb (User.email u) e); [now exists u | now apply IH].
Qed.


Lemma set_posts_same (db : DB) : set_posts (fun _ => posts db) db = db.
Proof. now destruct db. Qed.



(** C3, as stated, fails: with no user and no post the seed inserts
    nothing. *)
Lemma seed_without_users_inserts_nothing : ~ seed_inserts_unconditionally.
Proof.
  intros H. specialize (H (ids_from 16%N) empty_db eq_refl).
  vm_compute in H. discriminate H.
Qed.

(** C3, amended.  At startup, when the posts collection is empty and the
    users collection is not, the seed inserts the four fixed sample posts,
    the i-th (i = 0..3) referencing the user at position i of the users
    collection when there is one and carrying a null reference otherwise;
    when the users collection is empty too, nothing is inserted. *)
Theorem seed_inserts_when_a_user_exists (newId : nat -> ObjectId) (db : DB) :
  posts db = [] ->
  (users db <> [] ->
   seed newId db =
     (Ok tt, set_posts (fun _ => sample_posts newId (users db)) db)) /\
  (users db = [] -> seed newId db = (Ok tt, db)).
Proof.
  destruct db as [us ps]. simpl. intros ->. split.
  - intros Hne. destruct us as [|u us]; [now contradiction Hne|]. reflexivity.
  - intros ->. reflexivity.
Qed.

Lemma seed_inserts_when_a_user_exists_witness :
  seed (ids_from 16%N) {| users := [emma; liam]; posts := [] |} =
    (Ok tt,
     {| users := [emma; liam];
        posts :=
          [ sample_post 16%N "Hello from Emma" "Emma post content" (Some 1%N);
            sample_post 17%N "Liam on the Beach" "Surfing diary" (Some 2%N);
            sample_post 18%N "Sophia’s Cooking" "Today I made pasta" None;
            sample_post 19%N "Noah’s Hike" "Reached mountain top!" None ] |}) /\
  seed (ids_from 16%N) empty_db = (Ok tt, empty_db).
Proof.
  split.
  - apply (seed_inserts_when_a_user_exists (ids_from 16%N)
             {| users := [emma; liam]; posts := [] |}); [reflexivity|].
    simpl. discriminate.
  - apply (seed_inserts_when_a_user_exists (ids_from 16%N) empty_db);
      reflexivity.
Defined.

Lemma equals_refl (a : ObjectId) : equals a a = true.
Proof. apply N.eqb_refl. Qed.

Lemma equals_neq (a b : ObjectId) : a <> b -> equals a b = false.
Proof. intros H. now apply N.eqb_neq. Qed.

(** C4.  From exactly four users (with distinct identifiers, as the store
    guarantees) and no post, after the startup seed GET /api/posts returns
    exactly the four sample posts, the i-th carrying the identifier of the
    i-th user and joined to that user. *)
Theorem get_api_posts_after_seed
    (newId : nat -> ObjectId) (u0 u1 u2 u3 : User.t) (db : DB) :
  users db = [u0; u1; u2; u3] ->
  posts db = [] ->
  NoDup (map User._id (users db)) ->
  exists db',
    seed newId db = (Ok tt, db') /\
    get_api_posts db' =
      (Ok (res_json (PostsWithUser
         [ (sample_post (newId 0%nat) "Hello from Emma" "Emma post content"
              (Some (User._id u0)), Some u0);
           (sample_post (newId 1%nat) "Liam on the Beach" "Surfing diary"
              (Some (User._id u1)), Some u1);
           (sample_post (newId 2%nat) "Sophia’s Cooking" "Today I made pasta"
              (Some (User._id u2)), Some u2);
           (sample_post (newId 3%nat) "Noah’s Hike" "Reached mountain top!"
              (Some (User._id u3)), Some u3) ])),
       db').
Proof.
  destruct db as [us ps]. simpl. intros -> -> Hnodup.
  exists {| users := [u0; u1; u2; u3];
            posts := sample_posts newId [u0; u1; u2; u3] |}.
  split; [reflexivity|].
  simpl in Hnodup.
  inversion Hnodup as [|i0 l0 H0 Hn1]; subst.
  inversion Hn1 as [|i1 l1 H1 Hn2]; subst.
  inversion Hn2 as [|i2 l2 H2 Hn3]; subst.
  simpl in H0, H1, H2.
  cbn -[equals].
  rewrite !equals_refl.
  rewrite (equals_neq (User._id u1) (User._id u0)) by intuition congruence.
  rewrite (equals_neq (User._id u2) (User._id u0)) by intuition congruence.
  rewrite (equals_neq (User._id u2) (User._id u1)) by intuition congruence.
  rewrite (equals_neq (User._id u3) (User._id u0)) by intuition congruence.
  rewrite (equals_neq (User._id u3) (User._id u1)) by intuition congruence.
  rewrite (equals_neq (User._id u3) (User._id u2)) by intuition congruence.
  reflexivity.
Qed.

Lemma get_api_posts_after_seed_witness :
  exists db',
    seed (ids_from 16%N) four_users = (Ok tt, db') /\
    get_api_posts db' =
      (Ok (res_json (PostsWithUser
         [ (sample_post 16%N "Hello from Emma" "Emma post content" (Some 1%N),
            Some emma);
           (sample_post 17%N "Liam on the Beach" "Surfing diary" (Some 2%N),
            Some liam);
           (sample_post 18%N "Sophia’s Cooking" "Today I made pasta" (Some 3%N),
            Some sophia);
           (sample_post 19%N "Noah’s Hike" "Reached mountain top!" (Some 4%N),
            Some noah) ])),
       db').
Proof.
  apply (get_api_posts_after_seed (ids_from 16%N) emma liam sophia noah four_users);
    [reflexivity | reflexivity |].
  simpl. repeat constructor; simpl; intuition discriminate.
Defined.

(** C5, as stated, fails: POST /api/users with an empty body, on an empty
    database, is not rejected, whatever [trim] and [toLowerCase] are; a user
    is inserted. *)
Lemma post_api_users_accepts_empty_body :
  ~ exists rt : StringPrototype, @every_mutating_endpoint_validates rt.
Proof.
  intros (rt & Husers & _).
  destruct (Husers 16%N [] empty_db (or_introl eq_refl)) as (r & Hout & _).
  cbv beta iota zeta delta
    [post_api_users destructure try_catch bind lift users_findOne
     users_insertOne modify get ret Collection.findOne normalize_email
     call_trim with_default prop empty_db users find set_users app] in Hout.
  discriminate Hout.
Qed.

(** C5, amended.  For a request whose body destructures (it was parsed;
    [req.body] is not undefined): POST /api/posts answers 400 with the error
    body "Missing fields" and leaves the database as it is when userId, title
    or body is missing; PATCH /api/posts/:id/assign answers 400 with an error
    body and leaves the database as it is when userId is missing.  For a
    request without a parsed body ([req.body] undefined) neither handler
    answers: the destructuring before the try block throws, and the database
    is as it was.  (POST /api/users checks no field for presence.) *)
Theorem missing_fields_are_rejected
    (newId : ObjectId) (postId : string) (req_body : value) (db : DB) :
  (forall reqBody,
     destructure req_body = Ok reqBody ->
     missing "userId" reqBody \/ missing "title" reqBody \/ missing "body" reqBody ->
     post_api_posts newId req_body db =
       (Ok (res_status_json 400 (Error "Missing fields")), db)) /\
  (forall reqBody,
     destructure req_body = Ok reqBody ->
     missing "userId" reqBody ->
     patch_api_posts_assign postId req_body db =
       (Ok (res_status_json 400 (Error "Invalid ID or bad data")), db)) /\
  (forall e,
     destructure req_body = Throw e ->
     post_api_posts newId req_body db = (Throw e, db) /\
     patch_api_posts_assign postId req_body db = (Throw e, db)).
Proof.
  unfold missing. split; [|split].
  - intros reqBody Hbody H.
    cbv beta iota zeta delta [post_api_posts bind lift ret].
    rewrite Hbody. cbv beta iota.
    destruct H as [H | [H | H]]; rewrite H; simpl;
      rewrite ?orb_true_r; reflexivity.
  - intros reqBody Hbody H.
    cbv beta iota zeta delta [patch_api_posts_assign try_catch bind lift ret].
    rewrite Hbody. cbv beta iota. rewrite H. reflexivity.
  - intros e Hbody.
    cbv beta iota zeta delta [post_api_posts patch_api_posts_assign bind lift].
    rewrite Hbody. split; reflexivity.
Qed.

Lemma missing_fields_are_rejected_witness :
  post_api_posts 16%N (VObj [("title", VStr "Hello"); ("body", VStr "World")])
    four_users =
    (Ok (res_status_json 400 (Error "Missing fields")), four_users) /\
  patch_api_posts_assign "000000000000000000000010" (VObj []) seeded =
    (Ok (res_status_json 400 (Error "Invalid ID or bad data")), seeded) /\
  post_api_posts 16%N VUndefined four_users = (Throw TypeError, four_users) /\
  patch_api_posts_assign "000000000000000000000010" VUndefined four_users =
    (Throw TypeError, four_users).
Proof.
  split; [|split].
  - apply (proj1 (missing_fields_are_rejected 16%N "000000000000000000000010"
                    (VObj [("title", VStr "Hello"); ("body", VStr "World")])
                    four_users)
             [("title", VStr "Hello"); ("body", VStr "World")]);
      [reflexivity|].
    left. reflexivity.
  - apply (proj1 (proj2 (missing_fields_are_rejected 16%N
                           "000000000000000000000010" (VObj []) seeded)) []);
      reflexivity.
  - apply (proj2 (proj2 (missing_fields_are_rejected 16%N
                           "000000000000000000000010" VUndefined four_users))
             TypeError).
    reflexivity.
Defined.



Lemma find_user_present (id : ObjectId) (l : list User.t) :
  (exists u, In u l /\ User._id u = id) ->
  exists u, find (user_has_id id) l = Some u /\ In u l /\ User._id u = id.
Proof.
  intros (u & Hin & Hid).
  destruct (find (user_has_id id) l) as [u'|] eqn:Hfind.
  - apply find_some in Hfind. destruct Hfind as [Hin' Heq].
    exists u'. repeat split; [exact Hin'|]. now apply N.eqb_eq in Heq.
  - apply (find_none _ _ Hfind) in Hin. unfold user_has_id in Hin.
    rewrite Hid, equals_refl in Hin. discriminate Hin.
Qed.

Lemma find_user_absent (id : ObjectId) (l : list User.t) :
  (forall u, In u l -> User._id u <> id) -> find (user_has_id id) l = None.
Proof.
  intros H. destruct (find (user_has_id id) l) as [u|] eqn:Hfind; [|reflexivity].
  apply find_some in Hfind. destruct Hfind as [Hin Heq].
  apply N.eqb_eq in Heq. now elim (H u Hin).
Qed.



(** ** The driver's [deleteOne] and [updateOne] *)

Section FirstMatch.

Context {D : Type}.
Variable filter : D -> bool.

Lemma deleteOne_none (docs : list D) :
  (forall d, In d docs -> filter d = false) ->
  Collection.deleteOne filter docs = (docs, 0%N).
Proof.
  induction docs as [|d docs IH]; simpl; intros H; [reflexivity|].
  rewrite (H d) by now left.
  rewrite IH; [reflexivity|]. intros d' Hin. apply H. now right.
Qed.

Lemma deleteOne_some (docs : list D) :
  (exists d, In d docs /\ filter d = true) ->
  exists before d after,
    docs = before ++ d :: after /\
    filter d = true /\
    (forall d', In d' before -> filter d' = false) /\
    Collection.deleteOne filter docs = (before ++ after, 1%N).
Proof.
  induction docs as [|d docs IH]; intros (x & Hin & Hx); [contradiction|].
  simpl. destruct (filter d) eqn:Hd.
  - exists [], d, docs. repeat split; [assumption | contradiction].
  - destruct IH as (before & y & after & Hdocs & Hy & Hbefore & Hdel).
    { destruct Hin as [-> | Hin]; [congruence | now exists x]. }
    exists (d :: before), y, after. rewrite Hdel, Hdocs.
    repeat split; [assumption|].
    intros d' [<- | Hin']; [assumption | now apply Hbefore].
Qed.

Variable update : D -> option D.

(** What [updateOne] returns: either the first match was changed, and
    nothing else, or the collection is as it was. *)
Lemma updateOne_cases (docs : list D) :
  (exists before d d' after,
     docs = before ++ d :: after /\
     filter d = true /\ update d = Some d' /\
     (forall x, In x before -> filter x = false) /\
     Collection.updateOne filter update docs = (before ++ d' :: after, 1%N)) \/
  Collection.updateOne filter update docs = (docs, 0%N).
Proof.
  induction docs as [|d docs IH]; simpl; [now right|].
  destruct (filter d) eqn:Hd.
  - destruct (update d) as [d'|] eqn:Hu; [left | now right].
    exists [], d, d', docs. repeat split; [assumption | assumption | contradiction].
  - destruct IH as [(before & x & x' & after & Hdocs & Hx & Hu & Hbefore & Hupd) | Hupd].
    + left. exists (d :: before), x, x', after. rewrite Hupd, Hdocs.
      repeat split; [assumption | assumption |].
      intros y [<- | Hin]; [assumption | now apply Hbefore].
    + right. now rewrite Hupd.
Qed.

Lemma updateOne_unchanged (docs : list D) (d : D) :
  find filter docs = Some d -> update d = None ->
  Collection.updateOne filter update docs = (docs, 0%N).
Proof.
  induction docs as [|x docs IH]; simpl; [discriminate|].
  destruct (filter x) eqn:Hx.
  - intros [= ->] Hu. now rewrite Hu.
  - intros Hfind Hu. now rewrite (IH Hfind Hu).
Qed.

Lemma find_first_match (before after : list D) (d : D) :
  (forall x, In x before -> filter x = false) -> filter d = true ->
  find filter (before ++ d :: after) = Some d.
Proof.
  induction before as [|x before IH]; simpl; intros Hbefore Hd.
  - now rewrite Hd.
  - rewrite (Hbefore x) by now left. apply IH; [|assumption].
    intros y Hy. apply Hbefore. now right.
Qed.

End FirstMatch.

(** ** DELETE and PATCH *)

Lemma post_has_id_true (id : ObjectId) (p : Post.t) :
  post_has_id id p = true <-> Post._id p = id.
Proof. apply N.eqb_eq. Qed.

Lemma post_has_id_false (id : ObjectId) (p : Post.t) :
  post_has_id id p = false <-> Post._id p <> id.
Proof. apply N.eqb_neq. Qed.

(** C7.  DELETE /api/posts/:id with a well-formed identifier: when a post
    with that identifier exists, the first such post is removed, every other
    post and every user stay, and the answer is the success body; when no
    post has it, the answer is 404 and the database is as before. *)
Theorem delete_api_posts_removes_exactly_one
    (id : string) (oid : ObjectId) (db : DB) :
  createFromHexString (VStr id) = Ok oid ->
  ((exists p, In p (posts db) /\ Post._id p = oid) ->
   exists before p after,
     posts db = before ++ p :: after /\
     Post._id p = oid /\
     (forall q, In q before -> Post._id q <> oid) /\
     delete_api_posts id db =
       (Ok (res_json Success), set_posts (fun _ => before ++ after) db)) /\
  ((forall p, In p (posts db) -> Post._id p <> oid) ->
   delete_api_posts id db =
     (Ok (res_status_json 404 (Error "Not found")), db)).
Proof.
  intros Hid.
  cbv beta iota zeta delta
    [delete_api_posts try_catch bind lift posts_deleteOne get put ret].
  rewrite Hid. cbv beta iota. split.
  - intros (p & Hin & Hp).
    destruct (deleteOne_some (post_has_id oid) (posts db))
      as (before & d & after & Hdocs & Hd & Hbefore & Hdel).
    { exists p. split; [exact Hin | now apply post_has_id_true]. }
    exists before, d, after. rewrite Hdel. cbv beta iota.
    repeat split.
    + exact Hdocs.
    + now apply post_has_id_true.
    + intros q Hq. apply post_has_id_false. now apply Hbefore.
  - intros Hnone. rewrite deleteOne_none.
    + cbv beta iota. simpl. now rewrite set_posts_same.
    + intros d Hd. apply post_has_id_false. now apply Hnone.
Qed.

Lemma delete_api_posts_removes_exactly_one_witness :
  (exists before p after,
     posts seeded = before ++ p :: after /\
     Post._id p = 17%N /\
     (forall q, In q before -> Post._id q <> 17%N) /\
     delete_api_posts "000000000000000000000011" seeded =
       (Ok (res_json Success), set_posts (fun _ => before ++ after) seeded)) /\
  delete_api_posts "0000000000000000000000ff" seeded =
    (Ok (res_status_json 404 (Error "Not found")), seeded).
Proof.
  split.
  - apply (delete_api_posts_removes_exactly_one
             "000000000000000000000011" 17%N seeded); [reflexivity|].
    exists (sample_post 17%N "Liam on the Beach" "Surfing diary" (Some 2%N)).
    split; [simpl; tauto | reflexivity].
  - apply (delete_api_posts_removes_exactly_one
             "0000000000000000000000ff" 255%N seeded); [reflexivity|].
    simpl. intros p H.
    repeat (destruct H as [H | H]; [subst p; discriminate|]). contradiction.
Defined.

(** The post [p] with its reference set to [uid]. *)
Lemma set_userId_some (uid : ObjectId) (p p' : Post.t) :
  set_userId uid p = Some p' ->
  p' = {| Post._id := Post._id p; Post.title := Post.title p;
          Post.body := Post.body p; Post.userId := Some uid |}.
Proof.
  unfold set_userId. destruct (Post.userId p) as [old|].
  - destruct (equals old uid); [discriminate | now intros [= <-]].
  - now intros [= <-].
Qed.

Lemma set_userId_same (uid : ObjectId) (p : Post.t) :
  Post.userId p = Some uid -> set_userId uid p = None.
Proof. unfold set_userId. intros ->. now rewrite equals_refl. Qed.

(** What a successful assign did, whatever [req.body] was. *)
Lemma assign_success_inv_any
    (postId : string) (req_body : value) (db : DB) (r : response) (db' : DB) :
  patch_api_posts_assign postId req_body db = (Ok r, db') ->
  status r = 200%Z ->
  exists reqBody uid u pid before p after,
    destructure req_body = Ok reqBody /\
    createFromHexString (prop "userId" reqBody) = Ok uid /\
    find (user_has_id uid) (users db) = Some u /\
    User._id u = uid /\
    createFromHexString (VStr postId) = Ok pid /\
    posts db = before ++ p :: after /\
    Post._id p = pid /\
    (forall q, In q before -> Post._id q <> pid) /\
    r = res_json Success /\
    db' = {| users := users db;
             posts := before ++
                      {| Post._id := Post._id p; Post.title := Post.title p;
                         Post.body := Post.body p; Post.userId := Some uid |}
                      :: after |}.
Proof.
  cbv beta iota zeta delta
    [patch_api_posts_assign try_catch bind lift users_findOne
     Collection.findOne posts_updateOne get put ret].
  destruct (destructure req_body) as [reqBody|e] eqn:Hbody; cbv beta iota;
    [|discriminate].
  destruct (createFromHexString (prop "userId" reqBody)) as [uid|e] eqn:Huid;
    cbv beta iota; [|intros [= <- <-]; discriminate].
  destruct (find (user_has_id uid) (users db)) as [u|] eqn:Hu;
    cbv beta iota; [|intros [= <- <-]; discriminate].
  destruct (createFromHexString (VStr postId)) as [pid|e] eqn:Hpid;
    cbv beta iota; [|intros [= <- <-]; discriminate].
  assert (Hid : User._id u = uid).
  { apply find_some in Hu. now apply N.eqb_eq. }
  rewrite Hid.
  destruct (updateOne_cases (post_has_id pid) (set_userId uid) (posts db))
    as [(before & p & p' & after & Hdocs & Hp & Hset & Hbefore & Hrun) | Hrun];
    rewrite Hrun; cbv beta iota; simpl N.eqb; cbv iota;
    [|intros [= <- <-]; discriminate].
  intros [= <- <-] _.
  exists reqBody, uid, u, pid, before, p, after.
  apply set_userId_some in Hset. subst p'.
  repeat split; try assumption; try reflexivity.
  - now apply post_has_id_true.
  - intros q Hq. apply post_has_id_false. now apply Hbefore.
Qed.

(** The same for a body that is an object. *)
Lemma assign_success_inv
    (postId : string) (reqBody : object) (db : DB) (r : response) (db' : DB) :
  patch_api_posts_assign postId (VObj reqBody) db = (Ok r, db') ->
  status r = 200%Z ->
  exists uid u pid before p after,
    createFromHexString (prop "userId" reqBody) = Ok uid /\
    find (user_has_id uid) (users db) = Some u /\
    User._id u = uid /\
    createFromHexString (VStr postId) = Ok pid /\
    posts db = before ++ p :: after /\
    Post._id p = pid /\
    (forall q, In q before -> Post._id q <> pid) /\
    r = res_json Success /\
    db' = {| users := users db;
             posts := before ++
                      {| Post._id := Post._id p; Post.title := Post.title p;
                         Post.body := Post.body p; Post.userId := Some uid |}
                      :: after |}.
Proof.
  intros Hrun Hok.
  destruct (assign_success_inv_any _ _ _ _ _ Hrun Hok)
    as (reqBody0 & uid & u & pid & before & p & after & [= <-] & H).
  now exists uid, u, pid, before, p, after.
Qed.

(** C8.  After a successful PATCH /api/posts/:id/assign, whatever the
    request was: the path identifier and the userId of the body are
    well-formed, the userId is the identifier of a stored user, the users
    collection is as before, and the posts collection differs from the
    former one in one post only, the targeted one (the first post whose
    identifier is the path identifier), whose userId is now that user's
    identifier while its identifier, title and body are as before. *)
Theorem assign_changes_only_the_reference
    (postId : string) (req_body : value) (db : DB) (r : response) (db' : DB) :
  patch_api_posts_assign postId req_body db = (Ok r, db') ->
  status r = 200%Z ->
  users db' = users db /\
  exists reqBody uid pid before p p' after,
    destructure req_body = Ok reqBody /\
    createFromHexString (prop "userId" reqBody) = Ok uid /\
    (exists u, In u (users db) /\ User._id u = uid) /\
    createFromHexString (VStr postId) = Ok pid /\
    posts db = before ++ p :: after /\
    Post._id p = pid /\
    (forall q, In q before -> Post._id q <> pid) /\
    posts db' = before ++ p' :: after /\
    Post._id p' = Post._id p /\
    Post.title p' = Post.title p /\
    Post.body p' = Post.body p /\
    Post.userId p' = Some uid.
Proof.
  intros Hrun Hok.
  destruct (assign_success_inv_any _ _ _ _ _ Hrun Hok)
    as (reqBody & uid & u & pid & before & p & after
        & Hbody & Huid & Hu & Hid & Hpid & Hdocs & Hp & Hbefore & _ & ->).
  split; [reflexivity|].
  exists reqBody, uid, pid, before, p,
    {| Post._id := Post._id p; Post.title := Post.title p;
       Post.body := Post.body p; Post.userId := Some uid |}, after.
  repeat split; try assumption.
  exists u. split; [|exact Hid]. now apply find_some in Hu.
Qed.

Lemma assign_changes_only_the_reference_witness :
  patch_api_posts_assign "000000000000000000000011"
    (VObj [("userId", VStr "000000000000000000000004")]) seeded
  = (Ok (res_json Success), reassigned) /\
  users reassigned = users seeded /\
  exists reqBody uid pid before p p' after,
    destructure (VObj [("userId", VStr "000000000000000000000004")]) = Ok reqBody /\
    createFromHexString (prop "userId" reqBody) = Ok uid /\
    (exists u, In u (users seeded) /\ User._id u = uid) /\
    createFromHexString (VStr "000000000000000000000011") = Ok pid /\
    posts seeded = before ++ p :: after /\
    Post._id p = pid /\
    (forall q, In q before -> Post._id q <> pid) /\
    posts reassigned = before ++ p' :: after /\
    Post._id p' = Post._id p /\
    Post.title p' = Post.title p /\
    Post.body p' = Post.body p /\
    Post.userId p' = Some uid.
Proof.
  split; [reflexivity|].
  apply (assign_changes_only_the_reference "000000000000000000000011"
           (VObj [("userId", VStr "000000000000000000000004")]) seeded
           (res_json Success) reassigned);
    reflexivity.
Defined.

(** ** The address of a new user *)

(** What a successful POST /api/users stored. *)
Lemma post_api_users_success_inv {rt : StringPrototype}
    (newId : ObjectId) (reqBody : object) (db : DB) (u : User.t) (db' : DB) :
  post_api_users newId (VObj reqBody) db = (Ok (res_json (SuccessUser u)), db') ->
  db' = set_users (fun l => l ++ [stored_document u]) db /\
  User.address u =
    build_address (prop "street" reqBody) (prop "city" reqBody)
      (prop "zipCode" reqBody).
Proof.
  cbv beta iota zeta delta
    [post_api_users destructure try_catch bind lift users_findOne users_insertOne
     Collection.findOne get modify ret].
  destruct (normalize_email _) as [e|x]; cbv beta iota; [|discriminate].
  destruct (find (user_has_email e) (users db)) as [found|]; cbv beta iota;
    [discriminate|].
  intros [= <- <-]. split; reflexivity.
Qed.

(** C9.  The two branches of the address conditional of POST /api/users
    amount to the single rule: for all values of street, city and zipCode the
    address built is {street: street || '', city: city || '', zipCode:
    zipCode || ''}; with none of the three provided it is the three empty
    strings; and the document a successful request appends to the users
    collection, like the user it returns, carries that address. *)
Theorem build_address_is_the_single_rule :
  (forall street city zipCode,
     build_address street city zipCode = address_rule street city zipCode) /\
  build_address VUndefined VUndefined VUndefined =
    {| Address.street := VStr ""; Address.city := VStr "";
       Address.zipCode := VStr "" |} /\
  (forall (rt : StringPrototype) newId reqBody db u db',
     post_api_users newId (VObj reqBody) db = (Ok (res_json (SuccessUser u)), db') ->
     users db' = users db ++ [stored_document u] /\
     User.address (stored_document u) =
       address_rule (prop "street" reqBody) (prop "city" reqBody)
         (prop "zipCode" reqBody) /\
     User.address u =
       address_rule (prop "street" reqBody) (prop "city" reqBody)
         (prop "zipCode" reqBody)).
Proof.
  assert (Hrule : forall street city zipCode,
             build_address street city zipCode = address_rule street city zipCode).
  { intros street city zipCode. unfold build_address, address_rule, or_else.
    destruct (truthy street) eqn:Hs; cbv beta iota; rewrite ?Hs;
      [reflexivity|].
    destruct (truthy city) eqn:Hc; cbv beta iota; rewrite ?Hc;
      [reflexivity|].
    destruct (truthy zipCode) eqn:Hz; reflexivity. }
  split; [exact Hrule|]. split; [reflexivity|].
  intros rt newId reqBody db u db' Hrun.
  destruct (post_api_users_success_inv _ _ _ _ _ Hrun) as [-> Haddr].
  split; [reflexivity|]. simpl User.address. now rewrite Haddr, Hrule.
Qed.

Lemma build_address_is_the_single_rule_witness :
  @post_api_users ascii_strings 16%N
    (VObj [("name", VStr "Olivia"); ("email", VStr "olivia@example.com");
           ("age", VNum 31); ("city", VStr "Austin")]) four_users
  = (Ok (res_json (SuccessUser olivia)),
     set_users (fun l => l ++ [stored_document olivia]) four_users) /\
  users (set_users (fun l => l ++ [stored_document olivia]) four_users)
  = users four_users ++ [stored_document olivia] /\
  User.address (stored_document olivia) =
    {| Address.street := VStr ""; Address.city := VStr "Austin";
       Address.zipCode := VStr "" |} /\
  User.address olivia =
    {| Address.street := VStr ""; Address.city := VStr "Austin";
       Address.zipCode := VStr "" |}.
Proof.
  split; [reflexivity|].
  apply (proj2 (proj2 build_address_is_the_single_rule) ascii_strings 16%N
           [("name", VStr "Olivia"); ("email", VStr "olivia@example.com");
            ("age", VNum 31); ("city", VStr "Austin")] four_users olivia).
  reflexivity.
Defined.

(** ** Repeating an assign *)

Lemma assign_unchanged_is_404
    (postId : string) (reqBody : object) (db : DB)
    (uid pid : ObjectId) (u : User.t) (p : Post.t) :
  createFromHexString (prop "userId" reqBody) = Ok uid ->
  find (user_has_id uid) (users db) = Some u ->
  createFromHexString (VStr postId) = Ok pid ->
  find (post_has_id pid) (posts db) = Some p ->
  Post.userId p = Some uid ->
  patch_api_posts_assign postId (VObj reqBody) db =
    (Ok (res_status_json 404 (Error "Post not found or not changed")), db).
Proof.
  intros Huid Hu Hpid Hp Href.
  assert (Hid : User._id u = uid).
  { apply find_some in Hu. now apply N.eqb_eq. }
  cbv beta iota zeta delta
    [patch_api_posts_assign destructure try_catch bind lift users_findOne
     Collection.findOne posts_updateOne get put ret].
  rewrite Huid. cbv beta iota. rewrite Hu. cbv beta iota.
  rewrite Hpid. cbv beta iota. rewrite Hid.
  rewrite (updateOne_unchanged _ _ _ p Hp (set_userId_same uid p Href)).
  cbv beta iota. simpl N.eqb. cbv iota. now rewrite set_posts_same.
Qed.

(** C10.  PATCH /api/posts/:id/assign is not idempotent.  When the post the
    store finds for the identifier already references the given user, who
    exists, the update modifies nothing and the answer is 404 "Post not found
    or not changed", the database being as before; hence a successful assign
    repeated with the same arguments is answered 404. *)
Theorem assign_is_not_idempotent
    (postId : string) (reqBody : object) (db : DB) :
  (forall uid pid u p,
     createFromHexString (prop "userId" reqBody) = Ok uid ->
     find (user_has_id uid) (users db) = Some u ->
     createFromHexString (VStr postId) = Ok pid ->
     find (post_has_id pid) (posts db) = Some p ->
     Post.userId p = Some uid ->
     patch_api_posts_assign postId (VObj reqBody) db =
       (Ok (res_status_json 404 (Error "Post not found or not changed")), db)) /\
  (forall db',
     patch_api_posts_assign postId (VObj reqBody) db = (Ok (res_json Success), db') ->
     patch_api_posts_assign postId (VObj reqBody) db' =
       (Ok (res_status_json 404 (Error "Post not found or not changed")), db')).
Proof.
  split.
  - intros uid pid u p. apply assign_unchanged_is_404.
  - intros db' Hrun.
    destruct (assign_success_inv _ _ _ _ _ Hrun eq_refl)
      as (uid & u & pid & before & p & after
          & Huid & Hu & Hid & Hpid & Hdocs & Hp & Hbefore & _ & ->).
    apply (assign_unchanged_is_404 postId reqBody _ uid pid u
             {| Post._id := Post._id p; Post.title := Post.title p;
                Post.body := Post.body p; Post.userId := Some uid |});
      try assumption; try reflexivity.
    simpl. apply find_first_match.
    + intros q Hq. apply post_has_id_false. now apply Hbefore.
    + now apply post_has_id_true.
Qed.

Lemma assign_is_not_idempotent_witness :
  patch_api_posts_assign "000000000000000000000011"
    (VObj [("userId", VStr "000000000000000000000002")]) seeded
  = (Ok (res_status_json 404 (Error "Post not found or not changed")), seeded) /\
  patch_api_posts_assign "000000000000000000000011"
    (VObj [("userId", VStr "000000000000000000000004")]) seeded
  = (Ok (res_json Success), reassigned) /\
  patch_api_posts_assign "000000000000000000000011"
    (VObj [("userId", VStr "000000000000000000000004")]) reassigned
  = (Ok (res_status_json 404 (Error "Post not found or not changed")), reassigned).
Proof.
  split; [|split; [reflexivity|]].
  - apply (proj1 (assign_is_not_idempotent "000000000000000000000011"
                    [("userId", VStr "000000000000000000000002")] seeded)
             2%N 17%N liam
             (sample_post 17%N "Liam on the Beach" "Surfing diary" (Some 2%N)));
      reflexivity.
  - apply (proj2 (assign_is_not_idempotent "000000000000000000000011"
                    [("userId", VStr "000000000000000000000004")] seeded)
             reassigned).
    reflexivity.
Defined.

(** * Further properties of [server.js] *)

(** ** The startup seed, run again *)

(** X1.  The startup seed never throws and never touches the users
    collection; it changes nothing when the posts collection is not empty;
    and running it a second time, whatever identifiers the driver then
    generates, changes nothing: a restart does not seed twice. *)
Theorem seed_is_idempotent (newId newId' : nat -> ObjectId) (db : DB) :
  exists db',
    seed newId db = (Ok tt, db') /\
    users db' = users db /\
    (posts db <> [] -> db' = db) /\
    seed newId' db' = (Ok tt, db').
Proof.
  destruct db as [us [|p ps]].
  - destruct us as [|u us].
    + exists {| users := []; posts := [] |}.
      repeat split; reflexivity || (intros H; now contradiction H).
    + exists {| users := u :: us; posts := sample_posts newId (u :: us) |}.
      repeat split; reflexivity || (intros H; now contradiction H).
  - exists {| users := us; posts := p :: ps |}. repeat split; reflexivity.
Qed.

(** ** The joins of the read endpoints *)

Lemma refers_to_spec (p : Post.t) (u : User.t) :
  refers_to p u = true <-> Post.userId p = Some (User._id u).
Proof.
  unfold refers_to. destruct (Post.userId p) as [uid|].
  - unfold equals. rewrite N.eqb_eq. split; [now intros -> | now intros [= ->]].
  - split; discriminate.
Qed.

Lemma same_id_same_user (l : list User.t) (a b : User.t) :
  NoDup (map User._id l) -> In a l -> In b l ->
  User._id a = User._id b -> a = b.
Proof.
  induction l as [|x l IH]; simpl; [contradiction|].
  intros Hnd Ha Hb Heq. inversion Hnd as [|i l' Hnotin Hnd']; subst.
  destruct Ha as [-> | Ha], Hb as [-> | Hb].
  - reflexivity.
  - exfalso. apply Hnotin. rewrite Heq. now apply in_map.
  - exfalso. apply Hnotin. rewrite <- Heq. now apply in_map.
  - now apply IH.
Qed.

(** X2.  GET /api/posts and GET /api/users read the database without
    changing it, and with distinct user identifiers the two joins agree: a
    post is joined to a user by the first exactly when it is listed among
    that user's posts by the second. *)
Theorem read_endpoints_agree (db : DB) :
  NoDup (map User._id (users db)) ->
  exists lp lu,
    get_api_posts db = (Ok (res_json (PostsWithUser lp)), db) /\
    get_api_users db = (Ok (res_json (UsersWithPosts lu)), db) /\
    forall p u,
      In (p, Some u) lp <-> exists ps, In (u, ps) lu /\ In p ps.
Proof.
  intros Hnd. do 2 eexists. split; [reflexivity|]. split; [reflexivity|].
  intros p u. rewrite in_map_iff. split.
  - intros (p' & [= -> Hfind] & Hp).
    apply find_some in Hfind. destruct Hfind as [Hu Href].
    exists (filter (fun q => refers_to q u) (posts db)). split.
    + apply in_map_iff. now exists u.
    + apply filter_In. now split.
  - intros (ps & Hu & Hp). apply in_map_iff in Hu.
    destruct Hu as (u' & [= -> <-] & Hu). apply filter_In in Hp.
    destruct Hp as [Hp Href]. exists p. split; [|exact Hp]. f_equal.
    destruct (find (fun x => refers_to p x) (users db)) as [v|] eqn:Hfind.
    + apply find_some in Hfind. destruct Hfind as [Hv Hrefv]. f_equal.
      apply (same_id_same_user (users db)); try assumption.
      apply refers_to_spec in Href. apply refers_to_spec in Hrefv. congruence.
    + apply (find_none _ _ Hfind) in Hu. congruence.
Qed.

Lemma read_endpoints_agree_witness :
  exists lp lu,
    get_api_posts seeded = (Ok (res_json (PostsWithUser lp)), seeded) /\
    get_api_users seeded = (Ok (res_json (UsersWithPosts lu)), seeded) /\
    forall p u,
      In (p, Some u) lp <-> exists ps, In (u, ps) lu /\ In p ps.
Proof.
  apply (read_endpoints_agree seeded).
  simpl. repeat constructor; simpl; intuition discriminate.
Defined.

(** X3.  GET /api/posts lists every post once, in store order, and joins a
    post to no user exactly when its reference is null or names no stored
    user: a post with a dangling reference is served, with an undefined
    user. *)
Theorem get_api_posts_dangling_reference (db : DB) :
  exists lp,
    get_api_posts db = (Ok (res_json (PostsWithUser lp)), db) /\
    map fst lp = posts db /\
    forall p o,
      In (p, o) lp ->
      (o = None <->
       forall u, In u (users db) -> Post.userId p <> Some (User._id u)).
Proof.
  eexists. split; [reflexivity|]. split.
  - rewrite map_map. simpl. apply map_id.
  - intros p o Hin. apply in_map_iff in Hin.
    destruct Hin as (p' & [= -> <-] & _). split.
    + intros Hnone u Hu Href. apply refers_to_spec in Href.
      apply (find_none _ _ Hnone) in Hu. congruence.
    + intros Hno.
      destruct (find (fun u => refers_to p u) (users db)) as [u|] eqn:Hfind;
        [|reflexivity].
      apply find_some in Hfind. destruct Hfind as [Hu Href].
      apply refers_to_spec in Href. now elim (Hno u Hu).
Qed.

Lemma get_api_posts_dangling_reference_witness :
  exists lp,
    get_api_posts
      {| users := [emma];
         posts := [sample_post 16%N "Hello from Emma" "Emma post content" (Some 1%N);
                   sample_post 17%N "Liam on the Beach" "Surfing diary" (Some 2%N)] |}
    = (Ok (res_json (PostsWithUser lp)),
       {| users := [emma];
          posts := [sample_post 16%N "Hello from Emma" "Emma post content" (Some 1%N);
                    sample_post 17%N "Liam on the Beach" "Surfing diary" (Some 2%N)] |}) /\
    lp = [(sample_post 16%N "Hello from Emma" "Emma post content" (Some 1%N), Some emma);
          (sample_post 17%N "Liam on the Beach" "Surfing diary" (Some 2%N), None)] /\
    forall p o,
      In (p, o) lp ->
      (o = None <-> forall u, In u [emma] -> Post.userId p <> Some (User._id u)).
Proof.
  destruct (get_api_posts_dangling_reference
              {| users := [emma];
                 posts := [sample_post 16%N "Hello from Emma" "Emma post content" (Some 1%N);
                           sample_post 17%N "Liam on the Beach" "Surfing diary" (Some 2%N)] |})
    as (lp & Hrun & _ & Hnone).
  exists lp. split; [exact Hrun|]. split; [|exact Hnone].
  injection Hrun as <-. reflexivity.
Defined.

(** X4.  The rendered pages show what the JSON endpoints return: GET / and
    GET /users hand their templates the list GET /api/users answers with, and
    GET /posts shows, for every post GET /api/posts returns, the name of the
    user it is joined to there, or undefined when it is joined to none; no
    page changes the database. *)
Theorem pages_show_the_api_data (db : DB) :
  exists lu lp,
    get_api_users db = (Ok (res_json (UsersWithPosts lu)), db) /\
    get_api_posts db = (Ok (res_json (PostsWithUser lp)), db) /\
    Pages.get_index db = (Ok (Pages.render_users "index" lu), db) /\
    Pages.get_users db = (Ok (Pages.render_users "users" lu), db) /\
    Pages.get_posts db =
      (Ok (Pages.render_posts "posts"
             (map (fun pu => (fst pu, match snd pu with
                                      | Some u => User.name u
                                      | None => VUndefined
                                      end)) lp)
             (users db)), db).
Proof.
  do 2 eexists. repeat split; try reflexivity.
  unfold Pages.get_posts, bind, posts_find, users_find, get, ret.
  now rewrite map_map.
Qed.

(** ** POST /api/users: the email *)

(** X5.  POST /api/users with an email that is present and not a string
    (null, a boolean, a number, an array, an object) is answered 500 "Failed
    to add user" and stores nothing: the default applies to an absent email
    only, and [trim] is called on the value as it is. *)
Theorem post_api_users_non_string_email {rt : StringPrototype}
    (newId : ObjectId) (reqBody : object) (db : DB) :
  prop "email" reqBody <> VUndefined ->
  (forall s, prop "email" reqBody <> VStr s) ->
  post_api_users newId (VObj reqBody) db =
    (Ok (res_status_json 500 (Error "Failed to add user")), db).
Proof.
  intros Hdef Hstr.
  cbv beta iota zeta delta [post_api_users destructure try_catch bind lift].
  destruct (prop "email" reqBody) as [| | b | n | s | l | o];
    try reflexivity.
  - now contradiction Hdef.
  - now elim (Hstr s).
Qed.

Lemma post_api_users_non_string_email_witness :
  @post_api_users ascii_strings 16%N
    (VObj [("name", VStr "Olivia"); ("email", VNull)]) four_users =
    (Ok (res_status_json 500 (Error "Failed to add user")), four_users).
Proof.
  apply (@post_api_users_non_string_email ascii_strings 16%N
           [("name", VStr "Olivia"); ("email", VNull)] four_users).
  - simpl. discriminate.
  - simpl. intros s. discriminate.
Defined.

(** The three outcomes of POST /api/users on a body that is an object. *)
Lemma post_api_users_cases {rt : StringPrototype}
    (newId : ObjectId) (reqBody : object) (db : DB) :
  (exists e u,
     normalize_email (request_email reqBody) = Ok e /\
     find (user_has_email e) (users db) = None /\
     User.email u = e /\ User._id u = newId /\
     post_api_users newId (VObj reqBody) db =
       (Ok (res_json (SuccessUser u)),
        set_users (fun l => l ++ [stored_document u]) db)) \/
  post_api_users newId (VObj reqBody) db =
    (Ok (res_status_json 400 (Error "Email already exists")), db) \/
  post_api_users newId (VObj reqBody) db =
    (Ok (res_status_json 500 (Error "Failed to add user")), db).
Proof.
  cbv beta iota zeta delta
    [post_api_users destructure try_catch bind lift users_findOne users_insertOne
     Collection.findOne get modify ret].
  fold (request_email reqBody).
  destruct (normalize_email (request_email reqBody)) as [e|x]; cbv beta iota;
    [|now right; right].
  destruct (find (user_has_email e) (users db)) as [found|] eqn:Hfind;
    cbv beta iota; [now right; left|].
  left. do 2 eexists. repeat split; reflexivity || assumption.
Qed.

(** What POST /api/users does with any [req.body]: it throws with the
    database untouched, or behaves as on the object [req.body] destructures
    to. *)
Lemma post_api_users_body {rt : StringPrototype}
    (newId : ObjectId) (req_body : value) (db : DB) :
  match destructure req_body with
  | Ok reqBody =>
      post_api_users newId req_body db = post_api_users newId (VObj reqBody) db
  | Throw e => post_api_users newId req_body db = (Throw e, db)
  end.
Proof.
  destruct req_body; reflexivity.
Qed.

Lemma NoDup_snoc {A} (l : list A) (a : A) :
  NoDup l -> ~ In a l -> NoDup (l ++ [a]).
Proof.
  intros Hnd Hnot. induction Hnd as [|x l Hx Hnd IH]; simpl.
  - constructor; [intros [] | constructor].
  - constructor.
    + rewrite in_app_iff. intros [H | [H | []]]; [now apply Hx|].
      apply Hnot. now left.
    + apply IH. intros H. apply Hnot. now right.
Qed.

Lemma find_email_none_not_in (e : string) (l : list User.t) :
  find (user_has_email e) l = None -> ~ In e (map User.email l).
Proof.
  intros Hfind Hin. apply in_map_iff in Hin. destruct Hin as (u & Hu & Hin).
  apply (find_none _ _ Hfind) in Hin. unfold user_has_email in Hin.
  rewrite Hu, String.eqb_refl in Hin. discriminate Hin.
Qed.

(** X6.  POST /api/users keeps the emails of the users collection pairwise
    distinct: whatever [trim] and [toLowerCase] are, whatever the request and
    whatever the outcome, if no two stored users share an email before the
    request, none do after it. *)
Theorem post_api_users_keeps_emails_distinct {rt : StringPrototype}
    (newId : ObjectId) (req_body : value) (db : DB)
    (out : result response) (db' : DB) :
  post_api_users newId req_body db = (out, db') ->
  NoDup (map User.email (users db)) ->
  NoDup (map User.email (users db')).
Proof.
  intros Hrun Hnd. pose proof (post_api_users_body newId req_body db) as Hbody.
  destruct (destructure req_body) as [reqBody|x].
  - rewrite Hbody in Hrun.
    destruct (post_api_users_cases newId reqBody db)
      as [(e & u & _ & Hfind & He & _ & Hout) | [Hout | Hout]];
      rewrite Hout in Hrun; injection Hrun as _ <-; try assumption.
    simpl. rewrite map_app. simpl. apply NoDup_snoc; [assumption|].
    rewrite He. now apply find_email_none_not_in.
  - rewrite Hbody in Hrun. now injection Hrun as _ <-.
Qed.

Lemma post_api_users_keeps_emails_distinct_witness :
  NoDup ["emma.wilson@example.com"; "liam.carter@example.com";
         "sophia.patel@example.com"; "noah.kim@example.com";
         "olivia@example.com"].
Proof.
  apply (@post_api_users_keeps_emails_distinct ascii_strings 16%N
           (VObj [("name", VStr "Olivia"); ("email", VStr " Olivia@Example.com");
                  ("age", VNum 31); ("city", VStr "Austin")])
           four_users
           (Ok (res_json (SuccessUser olivia)))
           (set_users (fun l => l ++ [stored_document olivia]) four_users)).
  - reflexivity.
  - simpl. repeat constructor; simpl; intuition discriminate.
Defined.

Lemma post_api_users_duplicate {rt : StringPrototype}
    (newId : ObjectId) (reqBody : object) (db : DB) (e : string) :
  normalize_email (request_email reqBody) = Ok e ->
  In e (map User.email (users db)) ->
  post_api_users newId (VObj reqBody) db =
    (Ok (res_status_json 400 (Error "Email already exists")), db).
Proof.
  intros Hnorm Hin.
  cbv beta iota zeta delta
    [post_api_users destructure try_catch bind lift users_findOne get ret
     Collection.findOne].
  fold (request_email reqBody). rewrite Hnorm.
  destruct (find_email_present e _ Hin) as [u Hu]. now rewrite Hu.
Qed.

(** X7.  The email a successful POST /api/users returns is taken from then
    on, whatever [trim] and [toLowerCase] are: a later request whose email
    trims and lowercases to it, and in particular the same request sent
    again, is answered 400 "Email already exists" and stores nothing. *)
Theorem post_api_users_returned_email_is_taken {rt : StringPrototype}
    (newId newId' : ObjectId) (reqBody reqBody' : object)
    (db db' : DB) (u : User.t) :
  post_api_users newId (VObj reqBody) db = (Ok (res_json (SuccessUser u)), db') ->
  (normalize_email (request_email reqBody') = Ok (User.email u) ->
   post_api_users newId' (VObj reqBody') db' =
     (Ok (res_status_json 400 (Error "Email already exists")), db')) /\
  post_api_users newId' (VObj reqBody) db' =
    (Ok (res_status_json 400 (Error "Email already exists")), db').
Proof.
  intros Hrun.
  destruct (post_api_users_cases newId reqBody db)
    as [(e & u' & Hnorm & _ & He & _ & Hout) | [Hout | Hout]];
    rewrite Hout in Hrun; try discriminate Hrun.
  injection Hrun as -> <-.
  assert (Hin : In (User.email u)
                  (map User.email
                     (users (set_users (fun l => l ++ [stored_document u]) db)))).
  { simpl. rewrite map_app, in_app_iff. right. now left. }
  split.
  - intros Hnorm'. now apply (post_api_users_duplicate newId' reqBody' _ (User.email u)).
  - apply (post_api_users_duplicate newId' reqBody _ (User.email u)); [|exact Hin].
    now rewrite He.
Qed.

Lemma post_api_users_returned_email_is_taken_witness :
  @post_api_users ascii_strings 17%N
    (VObj [("email", VStr "OLIVIA@example.com ")])
    (set_users (fun l => l ++ [stored_document olivia]) four_users)
  = (Ok (res_status_json 400 (Error "Email already exists")),
     set_users (fun l => l ++ [stored_document olivia]) four_users) /\
  @post_api_users ascii_strings 17%N
    (VObj [("name", VStr "Olivia"); ("email", VStr " Olivia@Example.com");
           ("age", VNum 31); ("city", VStr "Austin")])
    (set_users (fun l => l ++ [stored_document olivia]) four_users)
  = (Ok (res_status_json 400 (Error "Email already exists")),
     set_users (fun l => l ++ [stored_document olivia]) four_users).
Proof.
  destruct (@post_api_users_returned_email_is_taken ascii_strings 16%N 17%N
              [("name", VStr "Olivia"); ("email", VStr " Olivia@Example.com");
               ("age", VNum 31); ("city", VStr "Austin")]
              [("email", VStr "OLIVIA@example.com ")]
              four_users
              (set_users (fun l => l ++ [stored_document olivia]) four_users)
              olivia eq_refl) as [Hother Hsame].
  split; [apply Hother; reflexivity | exact Hsame].
Defined.

(** ** Answers and failure atomicity of the mutating endpoints *)

Lemma deleteOne_cases {D} (filter : D -> bool) (docs : list D) :
  (exists before d after,
     docs = before ++ d :: after /\
     Collection.deleteOne filter docs = (before ++ after, 1%N)) \/
  Collection.deleteOne filter docs = (docs, 0%N).
Proof.
  induction docs as [|d docs IH]; simpl; [now right|].
  destruct (filter d).
  - left. now exists [], d, docs.
  - destruct IH as [(before & x & after & Hdocs & Hdel) | Hdel].
    + left. exists (d :: before), x, after. now rewrite Hdel, Hdocs.
    + right. now rewrite Hdel.
Qed.

Lemma answered_unchanged (out : result response * DB) (statuses : list Z)
    (db : DB) (c : Z) (b : payload) :
  out = (Ok (res_status_json c b), db) -> In c statuses ->
  answered out statuses db.
Proof.
  intros -> Hin. exists (res_status_json c b), db. now repeat split.
Qed.

Lemma answered_ok (out : result response * DB) (statuses : list Z)
    (db db' : DB) (b : payload) :
  out = (Ok (res_json b), db') -> In 200%Z statuses ->
  answered out statuses db.
Proof.
  intros -> Hin. exists (res_json b), db'. repeat split; [exact Hin|].
  intros H. now contradiction H.
Qed.

Lemma post_api_users_answered {rt : StringPrototype}
    (newId : ObjectId) (req_body : value) (db : DB) :
  handled (post_api_users newId req_body db) [200; 400; 500]%Z db req_body.
Proof.
  unfold handled. pose proof (post_api_users_body newId req_body db) as Hbody.
  destruct (destructure req_body) as [reqBody|x]; [|exact Hbody].
  rewrite Hbody.
  destruct (post_api_users_cases newId reqBody db)
    as [(e & u & _ & _ & _ & _ & Hout) | [Hout | Hout]].
  - eapply answered_ok; [exact Hout | simpl; tauto].
  - eapply answered_unchanged; [exact Hout | simpl; tauto].
  - eapply answered_unchanged; [exact Hout | simpl; tauto].
Qed.

Lemma post_api_posts_answered (newId : ObjectId) (req_body : value) (db : DB) :
  handled (post_api_posts newId req_body db) [200; 400; 404; 500]%Z db req_body.
Proof.
  unfold handled.
  cbv beta iota zeta delta
    [post_api_posts try_catch bind lift users_findOne get ret
     Collection.findOne posts_insertOne modify].
  destruct (destructure req_body) as [reqBody|x]; cbv beta iota; [|reflexivity].
  destruct (negb (truthy (prop "userId" reqBody))
            || negb (truthy (prop "title" reqBody))
            || negb (truthy (prop "body" reqBody))).
  { eapply answered_unchanged; [reflexivity | simpl; tauto]. }
  destruct (createFromHexString (prop "userId" reqBody)) as [uid|e];
    cbv beta iota.
  2: { eapply answered_unchanged; [reflexivity | simpl; tauto]. }
  destruct (find (user_has_id uid) (users db)) as [u|]; cbv beta iota.
  - eapply answered_ok; [reflexivity | simpl; tauto].
  - eapply answered_unchanged; [reflexivity | simpl; tauto].
Qed.

Lemma delete_api_posts_answered (id : string) (db : DB) :
  answered (delete_api_posts id db) [200; 400; 404]%Z db.
Proof.
  cbv beta iota zeta delta
    [delete_api_posts try_catch bind lift posts_deleteOne get put ret].
  destruct (createFromHexString (VStr id)) as [oid|e]; cbv beta iota.
  2: { eapply answered_unchanged; [reflexivity | simpl; tauto]. }
  destruct (deleteOne_cases (post_has_id oid) (posts db))
    as [(before & d & after & _ & Hdel) | Hdel];
    rewrite Hdel; cbv beta iota; simpl negb; cbv iota.
  - eapply answered_ok; [reflexivity | simpl; tauto].
  - rewrite set_posts_same.
    eapply answered_unchanged; [reflexivity | simpl; tauto].
Qed.

Lemma patch_api_posts_assign_answered
    (postId : string) (req_body : value) (db : DB) :
  handled (patch_api_posts_assign postId req_body db) [200; 400; 404]%Z db req_body.
Proof.
  unfold handled.
  cbv beta iota zeta delta
    [patch_api_posts_assign try_catch bind lift users_findOne
     Collection.findOne posts_updateOne get put ret].
  destruct (destructure req_body) as [reqBody|x]; cbv beta iota; [|reflexivity].
  destruct (createFromHexString (prop "userId" reqBody)) as [uid|e];
    cbv beta iota.
  2: { eapply answered_unchanged; [reflexivity | simpl; tauto]. }
  destruct (find (user_has_id uid) (users db)) as [u|]; cbv beta iota.
  2: { eapply answered_unchanged; [reflexivity | simpl; tauto]. }
  destruct (createFromHexString (VStr postId)) as [pid|e]; cbv beta iota.
  2: { eapply answered_unchanged; [reflexivity | simpl; tauto]. }
  destruct (updateOne_cases (post_has_id pid) (set_userId (User._id u)) (posts db))
    as [(before & p & p' & after & _ & _ & _ & _ & Hupd) | Hupd];
    rewrite Hupd; cbv beta iota; simpl N.eqb; cbv iota.
  - eapply answered_ok; [reflexivity | simpl; tauto].
  - rewrite set_posts_same.
    eapply answered_unchanged; [reflexivity | simpl; tauto].
Qed.

(** X8.  The only exception that escapes a mutating endpoint is the
    TypeError of destructuring [req.body] (undefined when no body was
    parsed), thrown by POST /api/users, POST /api/posts and PATCH
    /api/posts/:id/assign before their try block, with the database
    untouched.  On every other request POST /api/users answers 200, 400 or
    500, POST /api/posts 200, 400, 404 or 500, PATCH /api/posts/:id/assign
    200, 400 or 404, and DELETE /api/posts/:id, which reads no body, always
    answers 200, 400 or 404; with any status but 200 the two collections are
    as before the request. *)
Theorem mutating_endpoints_answer_atomically :
  (forall (rt : StringPrototype) newId req_body db,
     handled (post_api_users newId req_body db) [200; 400; 500]%Z db req_body) /\
  (forall newId req_body db,
     handled (post_api_posts newId req_body db) [200; 400; 404; 500]%Z db req_body) /\
  (forall id db,
     answered (delete_api_posts id db) [200; 400; 404]%Z db) /\
  (forall postId req_body db,
     handled (patch_api_posts_assign postId req_body db) [200; 400; 404]%Z db
       req_body).
Proof.
  repeat split.
  - intros rt. apply post_api_users_answered.
  - apply post_api_posts_answered.
  - apply delete_api_posts_answered.
  - apply patch_api_posts_assign_answered.
Qed.

(** ** Malformed and unknown identifiers *)

(** X9.  A userId in the body that [ObjectId.createFromHexString] refuses is
    answered differently by the two endpoints that take one: PATCH
    /api/posts/:id/assign answers 400 "Invalid ID or bad data", POST
    /api/posts (title and body present) answers 500 with the message of the
    exception; neither changes the database. *)
Theorem malformed_userId_answers
    (newId : ObjectId) (postId : string) (reqBody : object) (db : DB) (e : exn) :
  createFromHexString (prop "userId" reqBody) = Throw e ->
  patch_api_posts_assign postId (VObj reqBody) db =
    (Ok (res_status_json 400 (Error "Invalid ID or bad data")), db) /\
  (present "userId" reqBody -> present "title" reqBody -> present "body" reqBody ->
   post_api_posts newId (VObj reqBody) db =
     (Ok (res_status_json 500 (ErrorMessage e)), db)).
Proof.
  intros Hbad. split.
  - cbv beta iota zeta delta [patch_api_posts_assign destructure try_catch bind lift ret].
    now rewrite Hbad.
  - unfold present. intros Hu Ht Hb.
    cbv beta iota zeta delta [post_api_posts destructure try_catch bind lift ret].
    now rewrite Hu, Ht, Hb, Hbad.
Qed.

Lemma malformed_userId_answers_witness :
  patch_api_posts_assign "000000000000000000000011"
    (VObj [("userId", VStr "liam"); ("title", VStr "Hello"); ("body", VStr "World")]) seeded =
    (Ok (res_status_json 400 (Error "Invalid ID or bad data")), seeded) /\
  post_api_posts 32%N
    (VObj [("userId", VStr "liam"); ("title", VStr "Hello"); ("body", VStr "World")]) seeded =
    (Ok (res_status_json 500 (ErrorMessage BSONError)), seeded).
Proof.
  destruct (malformed_userId_answers 32%N "000000000000000000000011"
              [("userId", VStr "liam"); ("title", VStr "Hello"); ("body", VStr "World")]
              seeded BSONError eq_refl) as [Hpatch Hpost].
  split; [exact Hpatch|]. apply Hpost; reflexivity.
Defined.

(** X10.  A path identifier that [ObjectId.createFromHexString] refuses:
    DELETE /api/posts/:id answers 400 "Invalid ID"; PATCH
    /api/posts/:id/assign answers 400 when the body names a stored user, but
    404 "User not found" when it names none, because the user is looked up
    before the path identifier is parsed.  The database is unchanged in all
    three cases. *)
Theorem malformed_path_id_answers
    (id : string) (reqBody : object) (db : DB) (e : exn) (uid : ObjectId) :
  createFromHexString (VStr id) = Throw e ->
  createFromHexString (prop "userId" reqBody) = Ok uid ->
  delete_api_posts id db =
    (Ok (res_status_json 400 (Error "Invalid ID")), db) /\
  ((exists u, In u (users db) /\ User._id u = uid) ->
   patch_api_posts_assign id (VObj reqBody) db =
     (Ok (res_status_json 400 (Error "Invalid ID or bad data")), db)) /\
  ((forall u, In u (users db) -> User._id u <> uid) ->
   patch_api_posts_assign id (VObj reqBody) db =
     (Ok (res_status_json 404 (Error "User not found")), db)).
Proof.
  intros Hbad Huid. split; [|split].
  - cbv beta iota zeta delta [delete_api_posts try_catch bind lift ret].
    now rewrite Hbad.
  - intros Hex. destruct (find_user_present uid _ Hex) as (u & Hfind & _).
    cbv beta iota zeta delta
      [patch_api_posts_assign destructure try_catch bind lift users_findOne
       Collection.findOne get ret].
    rewrite Huid. cbv beta iota. rewrite Hfind. cbv beta iota. now rewrite Hbad.
  - intros Hnone.
    cbv beta iota zeta delta
      [patch_api_posts_assign destructure try_catch bind lift users_findOne
       Collection.findOne get ret].
    rewrite Huid. cbv beta iota. now rewrite (find_user_absent uid _ Hnone).
Qed.

Lemma malformed_path_id_answers_witness :
  delete_api_posts "17" seeded =
    (Ok (res_status_json 400 (Error "Invalid ID")), seeded) /\
  patch_api_posts_assign "17" (VObj [("userId", VStr "000000000000000000000002")]) seeded =
    (Ok (res_status_json 400 (Error "Invalid ID or bad data")), seeded) /\
  patch_api_posts_assign "17" (VObj [("userId", VStr "0000000000000000000000ff")]) seeded =
    (Ok (res_status_json 404 (Error "User not found")), seeded).
Proof.
  split; [|split].
  - apply (malformed_path_id_answers "17"
             [("userId", VStr "000000000000000000000002")] seeded BSONError 2%N);
      reflexivity.
  - apply (malformed_path_id_answers "17"
             [("userId", VStr "000000000000000000000002")] seeded BSONError 2%N);
      [reflexivity | reflexivity |].
    exists liam. split; [simpl; tauto | reflexivity].
  - apply (malformed_path_id_answers "17"
             [("userId", VStr "0000000000000000000000ff")] seeded BSONError 255%N);
      [reflexivity | reflexivity |].
    simpl. intros u H.
    repeat (destruct H as [H | H]; [subst u; discriminate|]). contradiction.
Defined.

Lemma updateOne_no_match {D} (filter : D -> bool) (update : D -> option D)
    (docs : list D) :
  (forall d, In d docs -> filter d = false) ->
  Collection.updateOne filter update docs = (docs, 0%N).
Proof.
  induction docs as [|d docs IH]; simpl; intros H; [reflexivity|].
  rewrite (H d) by now left.
  rewrite IH; [reflexivity|]. intros d' Hin. apply H. now right.
Qed.

(** X11.  PATCH /api/posts/:id/assign with well-formed identifiers, a
    stored user and no post of the given identifier is answered 404 "Post not
    found or not changed", the very answer given for a post that already
    references the user, and changes nothing. *)
Theorem assign_unknown_post_is_404
    (postId : string) (reqBody : object) (db : DB) (uid pid : ObjectId) :
  createFromHexString (prop "userId" reqBody) = Ok uid ->
  createFromHexString (VStr postId) = Ok pid ->
  (exists u, In u (users db) /\ User._id u = uid) ->
  (forall p, In p (posts db) -> Post._id p <> pid) ->
  patch_api_posts_assign postId (VObj reqBody) db =
    (Ok (res_status_json 404 (Error "Post not found or not changed")), db).
Proof.
  intros Huid Hpid Hex Hnone.
  destruct (find_user_present uid _ Hex) as (u & Hfind & _).
  cbv beta iota zeta delta
    [patch_api_posts_assign destructure try_catch bind lift users_findOne
     Collection.findOne posts_updateOne get put ret].
  rewrite Huid. cbv beta iota. rewrite Hfind. cbv beta iota.
  rewrite Hpid. cbv beta iota.
  rewrite updateOne_no_match.
  - cbv beta iota. simpl N.eqb. cbv iota. now rewrite set_posts_same.
  - intros d Hd. apply post_has_id_false. now apply Hnone.
Qed.

Lemma assign_unknown_post_is_404_witness :
  patch_api_posts_assign "0000000000000000000000ff"
    (VObj [("userId", VStr "000000000000000000000002")]) seeded =
    (Ok (res_status_json 404 (Error "Post not found or not changed")), seeded).
Proof.
  apply (assign_unknown_post_is_404 "0000000000000000000000ff"
           [("userId", VStr "000000000000000000000002")] seeded 2%N 255%N);
    [reflexivity | reflexivity | |].
  - exists liam. split; [simpl; tauto | reflexivity].
  - simpl. intros p H.
    repeat (destruct H as [H | H]; [subst p; discriminate|]). contradiction.
Defined.

(** ** Creating, listing and deleting a post *)

Lemma post_api_posts_success_inv
    (newId : ObjectId) (reqBody : object) (db : DB) (r : response) (db' : DB) :
  post_api_posts newId (VObj reqBody) db = (Ok r, db') ->
  status r = 200%Z ->
  exists uid u,
    createFromHexString (prop "userId" reqBody) = Ok uid /\
    find (user_has_id uid) (users db) = Some u /\
    r = res_json (SuccessId newId) /\
    db' = set_posts (fun l => l ++ [new_post newId reqBody u]) db.
Proof.
  cbv beta iota zeta delta
    [post_api_posts destructure try_catch bind lift users_findOne get ret
     Collection.findOne posts_insertOne modify].
  destruct (negb (truthy (prop "userId" reqBody))
            || negb (truthy (prop "title" reqBody))
            || negb (truthy (prop "body" reqBody)));
    [intros [= <- <-]; discriminate|].
  destruct (createFromHexString (prop "userId" reqBody)) as [uid|e];
    cbv beta iota; [|intros [= <- <-]; discriminate].
  destruct (find (user_has_id uid) (users db)) as [u|] eqn:Hfind;
    cbv beta iota; [|intros [= <- <-]; discriminate].
  intros [= <- <-] _. exists uid, u. now repeat split.
Qed.

Lemma find_pointwise {A} (f g : A -> bool) (l : list A) :
  (forall x, f x = g x) -> find f l = find g l.
Proof.
  intros H. induction l as [|x l IH]; simpl; [reflexivity|].
  now rewrite H, IH.
Qed.

(** X12.  A post created by POST /api/posts is served by the next GET
    /api/posts: the answer is the former list followed by the new post,
    joined to the user the request named. *)
Theorem created_post_is_listed
    (newId : ObjectId) (reqBody : object) (db : DB) (r : response) (db' : DB) :
  post_api_posts newId (VObj reqBody) db = (Ok r, db') ->
  status r = 200%Z ->
  exists u lp,
    In u (users db) /\
    createFromHexString (prop "userId" reqBody) = Ok (User._id u) /\
    get_api_posts db = (Ok (res_json (PostsWithUser lp)), db) /\
    get_api_posts db' =
      (Ok (res_json (PostsWithUser (lp ++ [(new_post newId reqBody u, Some u)]))),
       db').
Proof.
  intros Hrun Hok.
  destruct (post_api_posts_success_inv _ _ _ _ _ Hrun Hok)
    as (uid & u & Huid & Hfind & _ & ->).
  pose proof (find_some _ _ Hfind) as [Hin Hid]. apply N.eqb_eq in Hid.
  exists u. eexists. split; [exact Hin|]. split; [now rewrite Hid|].
  split; [reflexivity|].
  cbv beta iota zeta delta
    [get_api_posts posts_find users_find bind get ret set_posts users posts].
  destruct db as [us ps]. cbv beta iota. rewrite map_app. simpl map at 2.
  simpl users in Hfind.
  assert (Hjoin : find (fun x => refers_to (new_post newId reqBody u) x) us = Some u).
  { rewrite <- Hfind. apply find_pointwise.
    intros x. unfold refers_to, user_has_id, new_post, equals. simpl.
    rewrite Hid. apply N.eqb_sym. }
  now rewrite Hjoin.
Qed.

Lemma created_post_is_listed_witness :
  exists u lp,
    In u (users four_users) /\
    createFromHexString (VStr "000000000000000000000002") = Ok (User._id u) /\
    get_api_posts four_users = (Ok (res_json (PostsWithUser lp)), four_users) /\
    get_api_posts
      (set_posts
         (fun l => l ++ [new_post 16%N
                           [("userId", VStr "000000000000000000000002");
                            ("title", VStr "Hello"); ("body", VStr "World")] liam])
         four_users) =
      (Ok (res_json (PostsWithUser
             (lp ++ [(new_post 16%N
                        [("userId", VStr "000000000000000000000002");
                         ("title", VStr "Hello"); ("body", VStr "World")] u,
                      Some u)]))),
       set_posts
         (fun l => l ++ [new_post 16%N
                           [("userId", VStr "000000000000000000000002");
                            ("title", VStr "Hello"); ("body", VStr "World")] liam])
         four_users).
Proof.
  apply (created_post_is_listed 16%N
           [("userId", VStr "000000000000000000000002");
            ("title", VStr "Hello"); ("body", VStr "World")]
           four_users (res_json (SuccessId 16%N)));
    reflexivity.
Defined.

Lemma deleteOne_last {D} (filter : D -> bool) (docs : list D) (d : D) :
  (forall x, In x docs -> filter x = false) -> filter d = true ->
  Collection.deleteOne filter (docs ++ [d]) = (docs, 1%N).
Proof.
  induction docs as [|x docs IH]; simpl; intros Hnone Hd.
  - now rewrite Hd.
  - rewrite (Hnone x) by now left.
    rewrite IH; [reflexivity | | exact Hd].
    intros y Hy. apply Hnone. now right.
Qed.

(** X13.  Creating a post and deleting it by the identifier returned
    restores the database, provided the identifier the driver generated is
    the identifier of no earlier post. *)
Theorem create_then_delete_restores
    (newId : ObjectId) (id : string) (reqBody : object)
    (db : DB) (r : response) (db' : DB) :
  post_api_posts newId (VObj reqBody) db = (Ok r, db') ->
  status r = 200%Z ->
  createFromHexString (VStr id) = Ok newId ->
  (forall p, In p (posts db) -> Post._id p <> newId) ->
  delete_api_posts id db' = (Ok (res_json Success), db).
Proof.
  intros Hrun Hok Hid Hfresh.
  destruct (post_api_posts_success_inv _ _ _ _ _ Hrun Hok)
    as (uid & u & _ & _ & _ & ->).
  cbv beta iota zeta delta
    [delete_api_posts try_catch bind lift posts_deleteOne get put ret].
  rewrite Hid. cbv beta iota. destruct db as [us ps]. simpl in Hfresh.
  cbn [posts users set_posts].
  rewrite deleteOne_last.
  - reflexivity.
  - intros x Hx. apply post_has_id_false. now apply Hfresh.
  - apply equals_refl.
Qed.

Lemma create_then_delete_restores_witness :
  delete_api_posts "000000000000000000000020"
    (set_posts
       (fun l => l ++ [new_post 32%N
                         [("userId", VStr "000000000000000000000002");
                          ("title", VStr "Hello"); ("body", VStr "World")] liam])
       seeded)
  = (Ok (res_json Success), seeded).
Proof.
  apply (create_then_delete_restores 32%N "000000000000000000000020"
           [("userId", VStr "000000000000000000000002");
            ("title", VStr "Hello"); ("body", VStr "World")]
           seeded (res_json (SuccessId 32%N)));
    [reflexivity | reflexivity | reflexivity |].
  simpl. intros p H.
  repeat (destruct H as [H | H]; [subst p; discriminate|]). contradiction.
Defined.

Lemma delete_api_posts_success_inv
    (id : string) (db : DB) (r : response) (db' : DB) :
  delete_api_posts id db = (Ok r, db') ->
  status r = 200%Z ->
  exists oid before d after,
    createFromHexString (VStr id) = Ok oid /\
    posts db = before ++ d :: after /\
    Post._id d = oid /\
    (forall x, In x before -> Post._id x <> oid) /\
    r = res_json Success /\
    db' = set_posts (fun _ => before ++ after) db.
Proof.
  cbv beta iota zeta delta
    [delete_api_posts try_catch bind lift posts_deleteOne get put ret].
  destruct (createFromHexString (VStr id)) as [oid|e]; cbv beta iota;
    [|intros [= <- <-]; discriminate].
  destruct (existsb (post_has_id oid) (posts db)) eqn:Hex.
  - apply existsb_exists in Hex.
    destruct (deleteOne_some (post_has_id oid) (posts db) Hex)
      as (before & d & after & Hdocs & Hd & Hbefore & Hdel).
    rewrite Hdel. cbv beta iota. simpl negb. cbv iota.
    intros [= <- <-] _. exists oid, before, d, after.
    repeat split; try assumption.
    + now apply post_has_id_true.
    + intros x Hx. apply post_has_id_false. now apply Hbefore.
  - rewrite deleteOne_none.
    + cbv beta iota. simpl negb. cbv iota. intros [= <- <-]; discriminate.
    + intros d Hd. destruct (post_has_id oid d) eqn:Hf; [|reflexivity].
      assert (existsb (post_has_id oid) (posts db) = true)
        by (apply existsb_exists; now exists d).
      congruence.
Qed.

(** X14.  With distinct post identifiers, a DELETE /api/posts/:id that
    succeeded is answered 404 "Not found" when repeated, and the repetition
    changes nothing. *)
Theorem delete_twice_is_404
    (id : string) (db : DB) (r : response) (db' : DB) :
  NoDup (map Post._id (posts db)) ->
  delete_api_posts id db = (Ok r, db') ->
  status r = 200%Z ->
  delete_api_posts id db' =
    (Ok (res_status_json 404 (Error "Not found")), db').
Proof.
  intros Hnd Hrun Hok.
  destruct (delete_api_posts_success_inv _ _ _ _ Hrun Hok)
    as (oid & before & d & after & Hid & Hdocs & Hd & Hbefore & _ & ->).
  cbv beta iota zeta delta
    [delete_api_posts try_catch bind lift posts_deleteOne get put ret].
  rewrite Hid. cbv beta iota. destruct db as [us ps]. simpl in Hdocs, Hnd.
  cbn [posts users set_posts].
  rewrite deleteOne_none.
  - reflexivity.
  - intros x Hx. apply post_has_id_false. apply in_app_iff in Hx.
    destruct Hx as [Hx | Hx]; [now apply Hbefore|].
    rewrite Hdocs, map_app in Hnd. simpl in Hnd.
    apply NoDup_remove_2 in Hnd. intros Heq. apply Hnd.
    apply in_app_iff. right. rewrite Hd, <- Heq. now apply in_map.
Qed.

Lemma delete_twice_is_404_witness :
  delete_api_posts "000000000000000000000011"
    (set_posts
       (fun _ =>
          [ sample_post 16%N "Hello from Emma" "Emma post content" (Some 1%N);
            sample_post 18%N "Sophia’s Cooking" "Today I made pasta" (Some 3%N);
            sample_post 19%N "Noah’s Hike" "Reached mountain top!" (Some 4%N) ])
       seeded)
  = (Ok (res_status_json 404 (Error "Not found")),
     set_posts
       (fun _ =>
          [ sample_post 16%N "Hello from Emma" "Emma post content" (Some 1%N);
            sample_post 18%N "Sophia’s Cooking" "Today I made pasta" (Some 3%N);
            sample_post 19%N "Noah’s Hike" "Reached mountain top!" (Some 4%N) ])
       seeded).
Proof.
  apply (delete_twice_is_404 "000000000000000000000011" seeded (res_json Success)).
  - simpl. repeat constructor; simpl; intuition discriminate.
  - reflexivity.
  - reflexivity.
Defined.

(** ** Unique identifiers *)

Lemma unchanged_or_ok (out : result response * DB) (statuses : list Z)
    (db : DB) (r : response) (db' : DB) :
  answered out statuses db -> out = (Ok r, db') ->
  status r = 200%Z \/ db' = db.
Proof.
  intros (r0 & db0 & Hout & _ & Hsame) Heq. rewrite Hout in Heq.
  injection Heq as -> ->.
  destruct (Z.eq_dec (status r) 200) as [H | H]; [now left | right; auto].
Qed.

(** X15.  Every write of the server keeps the identifiers of each
    collection pairwise distinct, as long as the identifiers the driver
    generates are new: the startup seed, POST /api/users, POST /api/posts,
    DELETE /api/posts/:id and PATCH /api/posts/:id/assign all lead from a
    database with unique identifiers to one with unique identifiers. *)
Theorem writes_keep_ids_unique (db : DB) :
  unique_ids db ->
  (forall newId db',
     NoDup (map newId [0; 1; 2; 3]%nat) ->
     seed newId db = (Ok tt, db') -> unique_ids db') /\
  (forall (rt : StringPrototype) newId reqBody r db',
     ~ In newId (map User._id (users db)) ->
     post_api_users newId (VObj reqBody) db = (Ok r, db') -> unique_ids db') /\
  (forall newId reqBody r db',
     ~ In newId (map Post._id (posts db)) ->
     post_api_posts newId (VObj reqBody) db = (Ok r, db') -> unique_ids db') /\
  (forall id r db',
     delete_api_posts id db = (Ok r, db') -> unique_ids db') /\
  (forall postId reqBody r db',
     patch_api_posts_assign postId (VObj reqBody) db = (Ok r, db') -> unique_ids db').
Proof.
  intros [Husers Hposts]. split; [|split; [|split; [|split]]].
  - intros newId db' Hids Hrun. destruct db as [us ps]; simpl in *.
    destruct ps as [|p ps]; [destruct us as [|u us]|];
      simpl in Hrun; injection Hrun as <-; split; simpl; assumption.
  - intros rt newId reqBody r db' Hfresh Hrun.
    destruct (post_api_users_cases newId reqBody db)
      as [(e & u & _ & _ & _ & Hid & Hout) | [Hout | Hout]];
      rewrite Hout in Hrun; injection Hrun as _ <-; try (now split).
    split; [|assumption].
    simpl. rewrite map_app. simpl. apply NoDup_snoc; [assumption|].
    now rewrite Hid.
  - intros newId reqBody r db' Hfresh Hrun.
    destruct (unchanged_or_ok _ _ _ _ _
                (post_api_posts_answered newId (VObj reqBody) db) Hrun)
      as [Hok | ->]; [|now split].
    destruct (post_api_posts_success_inv _ _ _ _ _ Hrun Hok)
      as (uid & u & _ & _ & _ & ->).
    split; [assumption|].
    simpl. rewrite map_app. simpl. now apply NoDup_snoc.
  - intros id r db' Hrun.
    destruct (unchanged_or_ok _ _ _ _ _ (delete_api_posts_answered id db) Hrun)
      as [Hok | ->]; [|now split].
    destruct (delete_api_posts_success_inv _ _ _ _ Hrun Hok)
      as (oid & before & d & after & _ & Hdocs & _ & _ & _ & ->).
    split; [assumption|].
    simpl. rewrite Hdocs, map_app in Hposts. simpl in Hposts.
    rewrite map_app. now apply NoDup_remove_1 in Hposts.
  - intros postId reqBody r db' Hrun.
    destruct (unchanged_or_ok _ _ _ _ _
                (patch_api_posts_assign_answered postId (VObj reqBody) db) Hrun)
      as [Hok | ->]; [|now split].
    destruct (assign_success_inv _ _ _ _ _ Hrun Hok)
      as (uid & u & pid & before & p & after & _ & _ & _ & _ & Hdocs & _ & _ & _ & ->).
    split; [assumption|].
    simpl. rewrite Hdocs, map_app in Hposts. rewrite map_app. exact Hposts.
Qed.

Lemma writes_keep_ids_unique_witness :
  unique_ids seeded /\ unique_ids reassigned.
Proof.
  assert (H : unique_ids seeded).
  { split; simpl; repeat constructor; simpl; intuition discriminate. }
  split; [exact H|].
  apply (proj2 (proj2 (proj2 (proj2 (writes_keep_ids_unique seeded H))))
           "000000000000000000000011"
           [("userId", VStr "000000000000000000000004")]
           (res_json Success) reassigned).
  reflexivity.
Defined.

(** * Further properties of [demo.js] *)

Import Run.

Lemma run_check_runDemo (fails : call -> bool) :
  run_check (runDemo fails initial) = true.
Proof.
  run_oracle fails; reflexivity.
Qed.

Lemma run_check_parts (fails : call -> bool) :
  outcome_check (runDemo fails initial) = true /\
  close_check (final fails) = true /\
  completion_check (final fails) = true /\
  order_check (final fails) = true.
Proof.
  pose proof (run_check_runDemo fails) as H. unfold run_check in H.
  apply andb_true_iff in H. destruct H as [H Horder].
  apply andb_true_iff in H. destruct H as [H Hcompletion].
  apply andb_true_iff in H. destruct H as [Hout Hclose].
  unfold final. now repeat split.
Qed.

Lemma threw_spec (w : Runner) (c : call) :
  threw w c = true <-> In (c, true) (calls w).
Proof.
  split; [|apply threw_complete].
  unfold threw. rewrite existsb_exists. intros ([c' b] & Hin & H).
  simpl in H. apply andb_true_iff in H. destruct H as [Hc Hb].
  apply call_eqb_eq in Hc. now subst.
Qed.

Lemma returned_spec (w : Runner) (c : call) :
  returned w c = true <-> In (c, false) (calls w).
Proof.
  unfold returned. rewrite existsb_exists. split.
  - intros ([c' b] & Hin & H). simpl in H.
    apply andb_true_iff in H. destruct H as [Hc Hb].
    apply call_eqb_eq in Hc. apply negb_true_iff in Hb. now subst.
  - intros Hin. exists (c, false). split; [exact Hin|]. simpl.
    rewrite andb_true_r. now apply call_eqb_eq.
Qed.

Lemma logged_success_spec (w : Runner) (m : string) :
  logged_success w m = true <-> logged w (success m).
Proof.
  unfold logged_success, logged. rewrite existsb_exists. split.
  - intros (l & Hin & Hl). destruct l; try discriminate Hl.
    apply String.eqb_eq in Hl. now subst.
  - intros Hin. exists (success m). split; [exact Hin | apply String.eqb_refl].
Qed.

Lemma logged_error_spec (w : Runner) (m : string) :
  logged_error w m = true <-> logged w (errorLog m).
Proof.
  split; [apply logged_error_sound|].
  unfold logged_error, logged. rewrite existsb_exists.
  intros Hin. exists (errorLog m). split; [exact Hin | apply String.eqb_refl].
Qed.

Lemma in_call_list (c : call) (l : list call) :
  existsb (call_eqb c) l = true <-> In c l.
Proof.
  rewrite existsb_exists. split.
  - intros (c' & Hin & Heq). apply call_eqb_eq in Heq. now subst.
  - intros Hin. exists c. split; [exact Hin | now apply call_eqb_eq].
Qed.

(** X16.  [runDemo] rejects only when closing the client throws: whatever
    else fails, the error is caught (and logged) inside [runDemo] and the
    promise resolves. *)
Theorem runDemo_rejects_only_when_close_throws (fails : call -> bool) :
  match fst (runDemo fails initial) with
  | Ok _ => ~ In (client_close, true) (calls (final fails))
  | Throw e => e = DriverError /\ In (client_close, true) (calls (final fails))
  end.
Proof.
  destruct (run_check_parts fails) as [H _]. unfold outcome_check in H.
  fold (final fails) in H.
  destruct (fst (runDemo fails initial)) as [[]|e].
  - apply negb_true_iff in H. intros Hin. apply threw_spec in Hin. congruence.
  - destruct e; try discriminate H. split; [reflexivity | now apply threw_spec].
Qed.

(** X17.  The client is closed exactly when it was constructed: the call
    [client.close()] is made if and only if [new MongoClient] returned, it is
    then the last driver call of the run, and "Disconnected from MongoDB" is
    printed if and only if it returned. *)
Theorem client_is_closed_last (fails : call -> bool) :
  (made (final fails) client_close <->
   In (new_MongoClient, false) (calls (final fails))) /\
  (made (final fails) client_close ->
   last (map fst (calls (final fails))) new_MongoClient = client_close) /\
  (logged (final fails) (success "Disconnected from MongoDB") <->
   In (client_close, false) (calls (final fails))).
Proof.
  destruct (run_check_parts fails) as (_ & H & _). unfold close_check in H.
  apply andb_true_iff in H. destruct H as [H Hlog].
  apply andb_true_iff in H. destruct H as [Hiff Hlast].
  apply Bool.eqb_prop in Hiff. apply Bool.eqb_prop in Hlog.
  repeat split.
  - intros Hm. apply returned_spec. rewrite <- Hiff. now apply madeb_made.
  - intros Hr. apply madeb_made. rewrite Hiff. now apply returned_spec.
  - intros Hm. apply madeb_made in Hm. rewrite Hm in Hlast. simpl in Hlast.
    now apply call_eqb_eq.
  - intros Hl. apply returned_spec. rewrite <- Hlog. now apply logged_success_spec.
  - intros Hr. apply logged_success_spec. rewrite Hlog. now apply returned_spec.
Qed.

(** X18.  "Demo completed successfully" is printed exactly when "Demo
    failed" is not, and exactly when every driver call that threw is one of
    createIndexes, runAggregation, runGeospatialQueries or deleteDocuments
    (or the closing of the client): the run reports success although any of
    these steps failed. *)
Theorem completion_is_reported_despite_swallowed_failures (fails : call -> bool) :
  (logged (final fails) (success "Demo completed successfully 🎉") <->
   ~ logged (final fails) (errorLog "Demo failed")) /\
  (logged (final fails) (success "Demo completed successfully 🎉") <->
   forall c, In (c, true) (calls (final fails)) -> In c swallowed).
Proof.
  destruct (run_check_parts fails) as (_ & _ & H & _).
  unfold completion_check in H.
  apply andb_true_iff in H. destruct H as [Hall Hfail].
  apply Bool.eqb_prop in Hall. apply Bool.eqb_prop in Hfail.
  repeat split.
  - intros Hl Herr. apply logged_success_spec in Hl.
    apply logged_error_spec in Herr. rewrite Hl, Herr in Hfail. discriminate Hfail.
  - intros Hno. apply logged_success_spec. rewrite Hfail.
    apply negb_true_iff. destruct (logged_error (final fails) "Demo failed") eqn:He;
      [|reflexivity].
    apply logged_error_spec in He. now contradiction Hno.
  - intros Hl c Hc. apply logged_success_spec in Hl. rewrite Hl in Hall.
    symmetry in Hall. rewrite forallb_forall in Hall.
    specialize (Hall (c, true) Hc). simpl in Hall. now apply in_call_list.
  - intros Hsw. apply logged_success_spec. rewrite Hall.
    apply forallb_forall. intros [c b] Hc. destruct b; [|reflexivity].
    cbn [fst snd implb]. apply in_call_list. now apply Hsw.
Qed.

Lemma is_subsequence_sound (l p : list call) :
  is_subsequence l p = true -> subsequence l p.
Proof.
  revert l. induction p as [|y p IH]; intros l; simpl.
  - destruct l; [constructor | discriminate].
  - destruct l as [|x l]; [constructor|].
    destruct (call_eqb x y) eqn:Heq; intros H.
    + apply call_eqb_eq in Heq. subst. constructor. now apply IH.
    + constructor. now apply IH.
Qed.

Lemma distinct_sound (l : list call) : distinct l = true -> NoDup l.
Proof.
  induction l as [|x l IH]; simpl; [constructor|].
  intros H. apply andb_true_iff in H. destruct H as [Hx Hl].
  constructor; [|now apply IH].
  intros Hin. apply in_call_list in Hin. rewrite Hin in Hx. discriminate Hx.
Qed.

Lemma skips_rest_sound (w : Runner) (cs pre post : list call) (c : call) :
  skips_rest w cs = true -> cs = pre ++ c :: post ->
  In (c, true) (calls w) ->
  forall c', In c' post -> ~ made w c'.
Proof.
  revert cs. induction pre as [|x pre IH]; intros cs H -> Hc c' Hc' Hmade;
    simpl in H; apply andb_true_iff in H; destruct H as [H Hrest].
  - apply threw_spec in Hc. rewrite Hc in H. simpl in H.
    rewrite forallb_forall in H. specialize (H c' Hc').
    apply madeb_made in Hmade. rewrite Hmade in H. discriminate H.
  - exact (IH _ Hrest eq_refl Hc c' Hc' Hmade).
Qed.

(** X19.  The driver calls of a run are made in program order, each at most
    once, and inside the try block of a step a call that throws is the last
    call of that step: the calls that follow it in the block are skipped. *)
Theorem calls_follow_program_order (fails : call -> bool) :
  subsequence (map fst (calls (final fails))) program /\
  NoDup (map fst (calls (final fails))) /\
  forall s pre c post,
    calls_of s = pre ++ c :: post ->
    In (c, true) (calls (final fails)) ->
    forall c', In c' post -> ~ made (final fails) c'.
Proof.
  destruct (run_check_parts fails) as (_ & _ & _ & H). unfold order_check in H.
  apply andb_true_iff in H. destruct H as [H Hskip].
  apply andb_true_iff in H. destruct H as [Hsub Hdist].
  split; [now apply is_subsequence_sound|]. split; [now apply distinct_sound|].
  intros s pre c post Hs. rewrite forallb_forall in Hskip.
  exact (skips_rest_sound _ _ _ _ _ (Hskip s (all_steps_complete s)) Hs).
Qed.

(** * The second demo script *)

Ltac ask2 fails c :=
  try match goal with
      | |- context [fails c] => destruct (fails c)
      end.

Ltac run_oracle2 fails :=
  cbv [Demo2.final Demo2.runDemo Demo2.connect Demo2.disconnect
       Demo2.createIndexes Demo2.insertDocuments Demo2.readDocuments
       Demo2.updateDocuments Demo2.runAggregation Demo2.deleteDocuments
       Demo2.await Demo2.print Demo2.set_client bind ret throw try_catch
       try_finally get modify Demo2.initial snd Demo2.client Demo2.calls
       Demo2.console app];
  ask2 fails Demo2.new_MongoClient; ask2 fails Demo2.client_connect;
  ask2 fails Demo2.deleteMany_all;
  ask2 fails Demo2.createIndex_email; ask2 fails Demo2.createIndex_age;
  ask2 fails Demo2.createIndex_city; ask2 fails Demo2.createIndex_location;
  ask2 fails Demo2.insertOne_singleUser; ask2 fails Demo2.insertMany_multipleUsers;
  ask2 fails Demo2.find_allUsers; ask2 fails Demo2.find_youngUsers;
  ask2 fails Demo2.find_basicInfo;
  ask2 fails Demo2.updateOne_updateResult; ask2 fails Demo2.updateMany_bulkUpdate;
  ask2 fails Demo2.aggregate_result;
  ask2 fails Demo2.deleteMany_result;
  ask2 fails Demo2.countDocuments_finalCount;
  ask2 fails Demo2.client_close.

Lemma run_check_runDemo2 (fails : Demo2.call -> bool) :
  Demo2.run_check (Demo2.runDemo fails Demo2.initial) = true.
Proof.
  run_oracle2 fails; reflexivity.
Qed.

Lemma call2_eqb_eq (a b : Demo2.call) : Demo2.call_eqb a b = true <-> a = b.
Proof.
  split.
  - destruct a, b; simpl; intros H; try reflexivity; discriminate H.
  - intros ->. destruct b; reflexivity.
Qed.

Lemma threw2_spec (w : Demo2.Runner) (c : Demo2.call) :
  Demo2.threw w c = true <-> In (c, true) (Demo2.calls w).
Proof.
  unfold Demo2.threw. rewrite existsb_exists. split.
  - intros ([c' b] & Hin & H). simpl in H.
    apply andb_true_iff in H. destruct H as [Hc Hb].
    apply call2_eqb_eq in Hc. now subst.
  - intros Hin. exists (c, true). split; [exact Hin|]. simpl.
    rewrite andb_true_r. now apply call2_eqb_eq.
Qed.

Lemma returned2_spec (w : Demo2.Runner) (c : Demo2.call) :
  Demo2.returned w c = true <-> In (c, false) (Demo2.calls w).
Proof.
  unfold Demo2.returned. rewrite existsb_exists. split.
  - intros ([c' b] & Hin & H). simpl in H.
    apply andb_true_iff in H. destruct H as [Hc Hb].
    apply call2_eqb_eq in Hc. apply negb_true_iff in Hb. now subst.
  - intros Hin. exists (c, false). split; [exact Hin|]. simpl.
    rewrite andb_true_r. now apply call2_eqb_eq.
Qed.

Lemma madeb2_made (w : Demo2.Runner) (c : Demo2.call) :
  Demo2.madeb w c = true <-> Demo2.made w c.
Proof.
  unfold Demo2.madeb, Demo2.made. rewrite existsb_exists. split.
  - intros (c' & Hin & Heq). apply call2_eqb_eq in Heq. now subst.
  - intros Hin. exists c. split; [exact Hin | now apply call2_eqb_eq].
Qed.

Lemma logged_error2_spec (w : Demo2.Runner) (m : string) :
  Demo2.logged_error w m = true <-> Demo2.logged w (errorLog m).
Proof.
  unfold Demo2.logged_error, Demo2.logged. rewrite existsb_exists. split.
  - intros (l & Hin & Hl). destruct l; try discriminate Hl.
    apply String.eqb_eq in Hl. now subst.
  - intros Hin. exists (errorLog m). split; [exact Hin | apply String.eqb_refl].
Qed.

Lemma logged_success2_spec (w : Demo2.Runner) (m : string) :
  Demo2.logged_success w m = true <-> Demo2.logged w (success m).
Proof.
  unfold Demo2.logged_success, Demo2.logged. rewrite existsb_exists. split.
  - intros (l & Hin & Hl). destruct l; try discriminate Hl.
    apply String.eqb_eq in Hl. now subst.
  - intros Hin. exists (success m). split; [exact Hin | apply String.eqb_refl].
Qed.

Lemma run_check2_parts (fails : Demo2.call -> bool) :
  Demo2.boundaries_check (Demo2.final fails) = true /\
  Demo2.outcome_check (Demo2.runDemo fails Demo2.initial) = true /\
  Demo2.close_check (Demo2.final fails) = true.
Proof.
  pose proof (run_check_runDemo2 fails) as H. unfold Demo2.run_check in H.
  apply andb_true_iff in H. destruct H as [H Hclose].
  apply andb_true_iff in H. destruct H as [Hbound Hout].
  unfold Demo2.final. now repeat split.
Qed.

(** X20.  The second script has the same error boundaries as the first: in
    a run of its [runDemo], a failing step logs its own message; when the
    step is connect, insertDocuments, readDocuments or updateDocuments the
    error is rethrown, "Demo execution failed" is logged and no later driver
    call of the try block is made; when it is createIndexes, runAggregation
    or deleteDocuments the run goes on to the driver call that follows the
    step. *)
Theorem second_script_error_boundaries
    (fails : Demo2.call -> bool) (s : Demo2.step) :
  Demo2.failed (Demo2.final fails) s ->
  Demo2.logged (Demo2.final fails) (errorLog (Demo2.message s)) /\
  if Demo2.rethrows s then Demo2.aborts_after (Demo2.final fails) s
  else Demo2.continues_after (Demo2.final fails) s.
Proof.
  intros (c & Hc & Hin).
  destruct (run_check2_parts fails) as (H & _).
  unfold Demo2.boundaries_check in H. rewrite forallb_forall in H.
  assert (Hs : In s Demo2.all_steps) by (destruct s; simpl; tauto).
  specialize (H s Hs).
  assert (Hfail : existsb (Demo2.threw (Demo2.final fails)) (Demo2.calls_of s) = true).
  { apply existsb_exists. exists c. split; [exact Hc | now apply threw2_spec]. }
  rewrite Hfail in H. simpl implb in H.
  apply andb_true_iff in H. destruct H as [Hlog Hrest].
  split; [now apply logged_error2_spec|].
  destruct (Demo2.rethrows s).
  - apply andb_true_iff in Hrest. destruct Hrest as [Hfailed Hnone]. split.
    + now apply logged_error2_spec.
    + intros c' Hc' Hmade. rewrite forallb_forall in Hnone.
      specialize (Hnone c' Hc'). apply madeb2_made in Hmade.
      rewrite Hmade in Hnone. discriminate Hnone.
  - unfold Demo2.continues_after.
    destruct (Demo2.after s) as [|c' rest]; [trivial | now apply madeb2_made].
Qed.

Lemma second_script_error_boundaries_witness :
  Demo2.failed (Demo2.final (Demo2.only Demo2.updateMany_bulkUpdate))
    Demo2.UpdateDocuments /\
  Demo2.logged (Demo2.final (Demo2.only Demo2.updateMany_bulkUpdate))
    (errorLog "Update operation failed") /\
  Demo2.aborts_after (Demo2.final (Demo2.only Demo2.updateMany_bulkUpdate))
    Demo2.UpdateDocuments.
Proof.
  assert (Hfail : Demo2.failed (Demo2.final (Demo2.only Demo2.updateMany_bulkUpdate))
                    Demo2.UpdateDocuments).
  { exists Demo2.updateMany_bulkUpdate. split; vm_compute; tauto. }
  split; [exact Hfail|].
  exact (second_script_error_boundaries
           (Demo2.only Demo2.updateMany_bulkUpdate) Demo2.UpdateDocuments Hfail).
Defined.

(** X21.  In the second script, too, [runDemo] rejects only when closing
    the client throws; the client is closed exactly when it was constructed,
    as the last driver call of the run; and "Demo completed successfully" is
    printed exactly when "Demo execution failed" is not. *)
Theorem second_script_always_disconnects (fails : Demo2.call -> bool) :
  match fst (Demo2.runDemo fails Demo2.initial) with
  | Ok _ => ~ In (Demo2.client_close, true) (Demo2.calls (Demo2.final fails))
  | Throw e =>
      e = DriverError /\
      In (Demo2.client_close, true) (Demo2.calls (Demo2.final fails))
  end /\
  (Demo2.made (Demo2.final fails) Demo2.client_close <->
   In (Demo2.new_MongoClient, false) (Demo2.calls (Demo2.final fails))) /\
  (Demo2.made (Demo2.final fails) Demo2.client_close ->
   last (map fst (Demo2.calls (Demo2.final fails))) Demo2.new_MongoClient
   = Demo2.client_close) /\
  (Demo2.logged (Demo2.final fails) (success "Demo completed successfully 🎉") <->
   ~ Demo2.logged (Demo2.final fails) (errorLog "Demo execution failed")).
Proof.
  destruct (run_check2_parts fails) as (_ & Hout & Hclose).
  split.
  { unfold Demo2.outcome_check in Hout. fold (Demo2.final fails) in Hout.
    destruct (fst (Demo2.runDemo fails Demo2.initial)) as [[]|e].
    - apply negb_true_iff in Hout. intros Hin. apply threw2_spec in Hin. congruence.
    - destruct e; try discriminate Hout.
      split; [reflexivity | now apply threw2_spec]. }
  unfold Demo2.close_check in Hclose.
  apply andb_true_iff in Hclose. destruct Hclose as [H Hdone].
  apply andb_true_iff in H. destruct H as [Hiff Hlast].
  apply Bool.eqb_prop in Hiff. apply Bool.eqb_prop in Hdone.
  repeat split.
  - intros Hm. apply returned2_spec. rewrite <- Hiff. now apply madeb2_made.
  - intros Hr. apply madeb2_made. rewrite Hiff. now apply returned2_spec.
  - intros Hm. apply madeb2_made in Hm. rewrite Hm in Hlast. simpl in Hlast.
    now apply call2_eqb_eq.
  - intros Hl Herr. apply logged_success2_spec in Hl.
    apply logged_error2_spec in Herr. rewrite Hl, Herr in Hdone. discriminate Hdone.
  - intros Hno. apply logged_success2_spec. rewrite Hdone.
    apply negb_true_iff.
    destruct (Demo2.logged_error (Demo2.final fails) "Demo execution failed") eqn:He;
      [|reflexivity].
    apply logged_error2_spec in He. now contradiction Hno.
Qed.
